(** * dart_bert_tokenizer: the benchmark-fixture generator

    A shallow embedding of [scripts/generate_hf_benchmark_data.py] and of the
    WordPiece tokenizer whose output the script records.

    - [Py]        the Python values the script builds (str, int, list, tuple,
                  dict), their [str]/[repr] formatting and [json.dump].
    - [Script]    the script itself: the import guard, the four catalogs,
                  [main] and [_generate_dart_code], run in a writer/error
                  monad whose trace records every observable action.
    - [Fallible]  the same script when the calls it makes (import, file
                  system, tokenizer, standard output) can raise.
    - [WordPiece] the tokenizer (normalizer, pre-tokenizer, WordPiece model,
                  encoder), which the script only imports. *)

From Stdlib Require Import ZArith NArith Ascii String List Bool Lia.
From stdpp Require Import base decidable option list strings pretty gmap.
Import ListNotations.

Set Warnings "-register-all".

(** ** Characters that cannot be written inside a literal *)

Definition nl : string := String "010"%char EmptyString.
Definition tab : string := String "009"%char EmptyString.
Definition dquote : string := String "034"%char EmptyString.

(** Python's [s * n] on strings. *)
Fixpoint str_mul (s : string) (n : nat) : string :=
  match n with
  | O => EmptyString
  | S n' => s +:+ str_mul s n'
  end.

(** Python's [sep.join(parts)]. *)
Fixpoint str_join (sep : string) (parts : list string) : string :=
  match parts with
  | [] => EmptyString
  | [p] => p
  | p :: rest => p +:+ sep +:+ str_join sep rest
  end.

Module Py.

(** Python objects, as far as the script builds them.  A dict is kept as an
    association list in insertion order, which is the order [json.dump] and
    iteration use. *)
Inductive value :=
| Str (s : string)
| Int (n : N)
| List (xs : list value)
| Tuple (xs : list value)
| Dict (items : list (string * value)).

(** Exceptions: the four the script's own subscripting could raise, and any
    other class, by name, for what a library or the operating system
    raises. *)
Inductive exn :=
| KeyError (key : string)
| IndexError
| TypeError
| AttributeError
| Other (class : string).

(** The document [json.dump] writes: tuples become arrays, dict keys keep
    their order. *)
Inductive json :=
| JString (s : string)
| JNumber (n : N)
| JArray (xs : list json)
| JObject (members : list (string * json)).

Fixpoint to_json (v : value) : json :=
  match v with
  | Str s => JString s
  | Int n => JNumber n
  | List xs => JArray (map to_json xs)
  | Tuple xs => JArray (map to_json xs)
  | Dict items => JObject (map (fun kv => (fst kv, to_json (snd kv))) items)
  end.

(** [d[key]] on an association list: the first binding of [key]. *)
Fixpoint assoc {V : Type} (key : string) (items : list (string * V)) : option V :=
  match items with
  | [] => None
  | (k, v) :: rest => if String.eqb k key then Some v else assoc key rest
  end.

Definition keys {V : Type} (items : list (string * V)) : list string := map fst items.

Definition member (key : string) (j : json) : option json :=
  match j with
  | JObject members => assoc key members
  | _ => None
  end.

Definition member_names (j : json) : list string :=
  match j with
  | JObject members => keys members
  | _ => []
  end.

Definition elements (j : json) : list json :=
  match j with
  | JArray xs => xs
  | _ => []
  end.

Section Formatting.

(** [repr] of a [str] is Python's own (quote choice, escapes); it is taken as
    given. *)
Variable repr_str : string -> string.

Fixpoint repr (v : value) : string :=
  match v with
  | Str s => repr_str s
  | Int n => pretty n
  | List xs => "[" +:+ str_join ", " (map repr xs) +:+ "]"
  | Tuple [x] => "(" +:+ repr x +:+ ",)"
  | Tuple xs => "(" +:+ str_join ", " (map repr xs) +:+ ")"
  | Dict items =>
      "{" +:+ str_join ", " (map (fun kv => repr_str (fst kv) +:+ ": " +:+ repr (snd kv)) items) +:+ "}"
  end.

(** [str(v)], which is what an f-string placeholder shows. *)
Definition str (v : value) : string :=
  match v with
  | Str s => s
  | _ => repr v
  end.

End Formatting.

End Py.

Module Script.
Import Py.

(** The [Encoding] object the tokenizers library returns, restricted to the
    attributes the script reads. *)
Record Encoding := {
  tokens : list string;
  ids : list N;
  type_ids : list N;
  attention_mask : list N;
  offsets : list (N * N)
}.

(** What is outside the script: whether [from tokenizers import ...] works and
    which paths exist in the current directory. *)
Record World := {
  tokenizers_importable : bool;
  existing_files : gset string
}.

(** *** Reading the generated Dart text

    A declaration opens with two spaces, a constructor name and a
    parenthesis, lists one [field: value,] per line at four spaces, and
    closes with [  ),]. *)

Definition is_letter (c : ascii) : bool :=
  let n := nat_of_ascii c in
  ((65 <=? n) && (n <=? 90) || (97 <=? n) && (n <=? 122))%nat.

Fixpoint ident_before (stop : ascii) (s : string) : option string :=
  match s with
  | EmptyString => None
  | String c rest =>
      if Ascii.eqb c stop then Some EmptyString
      else if is_letter c then option_map (String c) (ident_before stop rest)
      else None
  end.

Definition field_of_line (line : string) : option string :=
  match line with
  | String " " (String " " (String " " (String " " rest))) => ident_before ":" rest
  | _ => None
  end.

Definition opener_of_line (line : string) : option string :=
  match line with
  | String " " (String " " rest) => ident_before "(" rest
  | _ => None
  end.

Fixpoint fields_until_close (lines : list string) : list string :=
  match lines with
  | [] => []
  | l :: rest =>
      if String.eqb l "  )," then []
      else
        match field_of_line l with
        | Some f => f :: fields_until_close rest
        | None => fields_until_close rest
        end
  end.

Fixpoint declarations (lines : list string) : list (string * list string) :=
  match lines with
  | [] => []
  | l :: rest =>
      match opener_of_line l with
      | Some ctor => (ctor, fields_until_close rest) :: declarations rest
      | None => declarations rest
      end
  end.

(** The test-case name on a [    name: '...',] line. *)
Definition name_of_line (line : string) : option string :=
  let n := String.length line in
  if String.prefix "    name: '" line
     && String.eqb (String.substring (n - 2) 2 line) "',"
  then Some (String.substring 11 (n - 13) line)
  else None.

Definition declared_names (lines : list string) : list string :=
  flat_map (fun l => match name_of_line l with Some n => [n] | None => [] end) lines.

(** The arrays of the dumped document, by catalog. *)
Definition records_under (key : string) (doc : json) : list json :=
  match member key doc with
  | Some arr => elements arr
  | None => []
  end.

(** What the script uses without defining it: the tokenizers package (the
    tokenizer class, its constructor [BertWordPieceTokenizer(vocab,
    lowercase=..., strip_accents=...)], its method [encode(text)] /
    [encode(text_a, text_b)]) and Python's [repr] on strings. *)
Class Library := {
  Tokenizer : Type;
  BertWordPieceTokenizer : string -> bool -> bool -> Tokenizer;
  encode : Tokenizer -> string -> option string -> Encoding;
  repr_str : string -> string
}.

Section Program.

Context `{Library}.

(** Every action of a run that can be observed from outside, in order. *)
Inductive event :=
| EvPrint (line : string)
| EvExists (path : string) (found : bool)
| EvNewTokenizer (vocab : string) (lowercase strip_accents : bool) (instance : Tokenizer)
| EvEncode (instance : Tokenizer) (text : string) (pair : option string)
| EvDump (path : string) (doc : json).

Inductive outcome (A : Type) :=
| Normal (a : A)
| SysExit (code : Z)
| Uncaught (e : exn).
Arguments Normal {A} a.
Arguments SysExit {A} code.
Arguments Uncaught {A} e.

(** A computation: how it ends and what it did until then. *)
Definition M (A : Type) : Type := outcome A * list event.

Definition ret {A : Type} (a : A) : M A := (Normal a, []).

Definition bind {A B : Type} (m : M A) (f : A -> M B) : M B :=
  match m with
  | (Normal a, t) => let '(r, t') := f a in (r, t ++ t')
  | (SysExit c, t) => (SysExit c, t)
  | (Uncaught e, t) => (Uncaught e, t)
  end.

Notation "x <- m ;; k" := (bind m (fun x => k))
  (at level 100, m at next level, right associativity).
Notation "m ;; k" := (bind m (fun _ => k))
  (at level 100, right associativity).

Definition emit (e : event) : M unit := (Normal tt, [e]).
Definition print (line : string) : M unit := emit (EvPrint line).
Definition sys_exit {A : Type} (code : Z) : M A := (SysExit code, []).
Definition raise {A : Type} (e : exn) : M A := (Uncaught e, []).

Definition result_of {A : Type} (m : M A) : outcome A := fst m.
Definition trace_of {A : Type} (m : M A) : list event := snd m.

Variable w : World.

Definition path_exists (path : string) : M bool :=
  let found := bool_decide (path ∈ existing_files w) in
  (Normal found, [EvExists path found]).

Definition new_tokenizer (vocab : string) (lowercase strip_accents : bool) : M Tokenizer :=
  let t := BertWordPieceTokenizer vocab lowercase strip_accents in
  (Normal t, [EvNewTokenizer vocab lowercase strip_accents t]).

Definition call_encode (t : Tokenizer) (text : string) (pair : option string) : M Encoding :=
  (Normal (encode t text pair), [EvEncode t text pair]).

(** [open(path, "w")] followed by [json.dump(obj, f, indent=2,
    ensure_ascii=False)]: the two keyword arguments change the layout of the
    text, not the document. *)
Definition json_dump (path : string) (obj : value) : M unit :=
  emit (EvDump path (to_json obj)).

(** [v[key]] *)
Definition getitem (v : value) (key : string) : M value :=
  match v with
  | Dict items =>
      match assoc key items with
      | Some x => ret x
      | None => raise (KeyError key)
      end
  | _ => raise TypeError
  end.

(** [v[i]] on a list or a tuple.  Python also indexes a str (characters) and
    a dict (by key); the script indexes neither, and what is proved of
    [getindex] is about lists and tuples. *)
Definition getindex (v : value) (i : nat) : M value :=
  match v with
  | List xs | Tuple xs =>
      match nth_error xs i with
      | Some x => ret x
      | None => raise IndexError
      end
  | _ => raise TypeError
  end.

(** The elements a [for] loop over a list or a tuple visits.  Python also
    iterates over a str (its characters) and a dict (its keys); the script
    iterates over neither, and what is proved of [iter] is about lists and
    tuples. *)
Definition iter (v : value) : M (list value) :=
  match v with
  | List xs | Tuple xs => ret xs
  | _ => raise TypeError
  end.

Fixpoint set_first (key : string) (x : value) (items : list (string * value))
  : list (string * value) :=
  match items with
  | [] => []
  | (k, v) :: rest =>
      if String.eqb k key then (k, x) :: rest else (k, v) :: set_first key x rest
  end.

(** [d[key].append(x)]: the list stored under [key] grows in place. *)
Definition append_at (d : value) (key : string) (x : value) : M value :=
  l <- getitem d key ;;
  match l, d with
  | List xs, Dict items => ret (Dict (set_first key (List (xs ++ [x])) items))
  | _, _ => raise AttributeError
  end.

(** [for x in l: s = body(x, s)] *)
Fixpoint for_each {A S : Type} (l : list A) (s : S) (body : A -> S -> M S) : M S :=
  match l with
  | [] => ret s
  | x :: rest => s' <- body x s ;; for_each rest s' body
  end.

(** A list comprehension whose element expression can raise. *)
Fixpoint comprehension {A B : Type} (f : A -> M B) (l : list A) : M (list B) :=
  match l with
  | [] => ret []
  | x :: rest => y <- f x ;; ys <- comprehension f rest ;; ret (y :: ys)
  end.

(** *** The catalogs *)

Local Open Scope string_scope.

Definition SINGLE_ENCODING_TESTS : list (string * string) := [
  ("Simple greeting", "Hello, world!");
  ("Classic pangram", "The quick brown fox jumps over the lazy dog.");
  ("Subword tokenization", "tokenization");
  ("Complex subword", "unbelievable");
  ("Accented text (café)", "café");
  ("Accented text (naïve)", "naïve");
  ("Accented text (résumé)", "résumé");
  ("Numbers", "12345");
  ("Multiple punctuation", "!!??");
  ("BERT model name", "BERT is a transformer-based model.");
  ("NLP text", "I love NLP!");
  ("Contraction (I'm)", "I'm happy");
  ("Contraction (don't)", "don't");
  ("Hyphenated word", "state-of-the-art");
  ("Machine learning sentence", "Machine learning is amazing!");
  ("Subword (preprocessing)", "preprocessing");
  ("Subword (playing)", "playing");
  ("Subword (transformers)", "transformers");
  ("Question sentence", "Hello, how are you?");
  ("Ellipsis in text", "test...test");
  ("Year in sentence", "The year is 2024.");
  ("Framework names", "TensorFlow and PyTorch are popular.");
  ("Long NLP sentence", "Natural language processing (NLP) is a subfield of linguistics, computer science, and artificial intelligence.");
  ("Mixed symbols", "Hello @user #hashtag $100 50%");
  ("Email in sentence", "Email: test@example.com");
  ("Complex URL", "https://www.example.com/path?query=value");
  ("German umlaut (Zürich)", "Zürich");
  ("Portuguese (São Paulo)", "São Paulo");
  ("German umlaut (München)", "München");
  ("Multiple accented words", "naïve café résumé");
  ("French accent (fiancée)", "fiancée");
  ("Spanish tilde (piñata)", "piñata");
  ("Very long word 1", "antidisestablishmentarianism");
  ("Very long word 2", "supercalifragilisticexpialidocious");
  ("Very long word 3", "internationalization");
  ("Scientific term", "deoxyribonucleic");
  ("Numbers in sentence", "I have 3 cats and 2 dogs.");
  ("Temperature with degree", "The temperature is 72.5°F.");
  ("Date format", "2023-12-25");
  ("Time format", "10:30 AM");
  ("Formatted number", "1,234,567.89");
  ("Contraction (won't)", "won't");
  ("Contraction (it's)", "it's");
  ("Contraction (they're)", "they're");
  ("Contraction (we've)", "we've");
  ("Hyphenated (well-known)", "well-known");
  ("Hyphenated (self-driving)", "self-driving");
  ("Hyphenated (twenty-first)", "twenty-first");
  ("Exclamation with question", "Really?!");
  ("Trailing ellipsis", "Wait...");
  ("Multiple exclamations", "Hello!!!");
  ("Mixed punctuation", "What?!?!");
  ("Double quoted", dquote +:+ "Hello" +:+ dquote);
  ("Single quoted", "'Hello'");
  ("Quote in sentence", "He said 'hello'");
  ("Underscore identifier", "function_name");
  ("camelCase", "camelCase");
  ("PascalCase", "PascalCase");
  ("snake_case", "snake_case");
  ("SCREAMING_CASE", "SCREAMING_CASE");
  ("Greek letter beta", "β-testing");
  ("Greek letter alpha", "α-version");
  ("Greek letter mu", "µ-controller");
  ("Repeated character", str_mul "a" 50);
  ("Repeated word", str_mul "test " 10);
  ("Punctuation only", ".,!?;:")
].

Definition PAIR_ENCODING_TESTS : list (string * string * string) := [
  ("Simple QA pair", "What is NLP?", "Natural language processing.");
  ("Question-Answer pair", "Who created BERT?", "Google AI researchers.");
  ("Short pair", "Hello", "World")
].

Definition EDGE_CASE_TESTS : list (string * string) := [
  ("Empty string", EmptyString);
  ("Whitespace only", "   ");
  ("Tab and newline", tab +:+ nl);
  ("Single character", "a");
  ("Single punctuation", ".");
  ("Multiple spaces between words", "hello    world");
  ("All caps", "HELLO WORLD");
  ("Mixed case", "HeLLo WoRLd");
  ("URL-like text", "https://example.com");
  ("Email-like text", "test@example.com");
  ("Currency symbols", "$100");
  ("Percentage", "50%")
].

Definition OFFSET_TESTS : list (string * string) := [
  ("Simple word offsets", "hello");
  ("Two words offsets", "hello world");
  ("Subword offsets", "tokenization")
].

Local Close Scope string_scope.

(** *** Attributes of an [Encoding] as Python objects *)

Definition str_list (l : list string) : value := List (map Str l).
Definition int_list (l : list N) : value := List (map Int l).
Definition span_list (l : list (N * N)) : value :=
  List (map (fun o => Tuple [Int (fst o); Int (snd o)]) l).

(** *** The import guard at module level *)

Definition import_guard : M unit :=
  if tokenizers_importable w then ret tt
  else
    print "ERROR: tokenizers package not installed." ;;
    print "Run: pip install tokenizers" ;;
    sys_exit 1.

(** *** The four loops of [main]

    Each body builds the dict literal [result], appends it to its list in
    [results] and prints one line. *)

Definition single_result (name text : string) (encoding : Encoding) : value :=
  Dict [("name", Str name);
        ("input", Str text);
        ("tokens", str_list (tokens encoding));
        ("ids", int_list (ids encoding));
        ("type_ids", int_list (type_ids encoding));
        ("attention_mask", int_list (attention_mask encoding));
        ("offsets", span_list (offsets encoding))]%string.

Definition pair_result (name text_a text_b : string) (encoding : Encoding) : value :=
  Dict [("name", Str name);
        ("input_a", Str text_a);
        ("input_b", Str text_b);
        ("tokens", str_list (tokens encoding));
        ("ids", int_list (ids encoding));
        ("type_ids", int_list (type_ids encoding));
        ("attention_mask", int_list (attention_mask encoding));
        ("offsets", span_list (offsets encoding))]%string.

Definition offset_result (name text : string) (encoding : Encoding) : value :=
  Dict [("name", Str name);
        ("input", Str text);
        ("tokens", str_list (tokens encoding));
        ("ids", int_list (ids encoding));
        ("offsets", span_list (offsets encoding))]%string.

Definition single_body (tokenizer : Tokenizer) (case : string * string) (results : value)
  : M value :=
  let '(name, text) := case in
  encoding <- call_encode tokenizer text None ;;
  let result := single_result name text encoding in
  results <- append_at results "single_encoding" result ;;
  print ("  " +:+ name +:+ ": " +:+ str repr_str (str_list (tokens encoding))) ;;
  ret results.

Definition pair_body (tokenizer : Tokenizer) (case : string * string * string)
  (results : value) : M value :=
  let '(name, text_a, text_b) := case in
  encoding <- call_encode tokenizer text_a (Some text_b) ;;
  let result := pair_result name text_a text_b encoding in
  results <- append_at results "pair_encoding" result ;;
  print ("  " +:+ name +:+ ": " +:+ str repr_str (str_list (tokens encoding))) ;;
  ret results.

(** The edge-case loop also binds a local [display] that nothing reads; it is
    a pure expression and is left out. *)
Definition edge_body (tokenizer : Tokenizer) (case : string * string) (results : value)
  : M value :=
  let '(name, text) := case in
  encoding <- call_encode tokenizer text None ;;
  let result := single_result name text encoding in
  results <- append_at results "edge_cases" result ;;
  print ("  " +:+ name +:+ ": " +:+ str repr_str (str_list (tokens encoding))) ;;
  ret results.

Definition offset_body (tokenizer : Tokenizer) (case : string * string) (results : value)
  : M value :=
  let '(name, text) := case in
  encoding <- call_encode tokenizer text None ;;
  let result := offset_result name text encoding in
  results <- append_at results "offset_tests" result ;;
  print ("  " +:+ name +:+ ": offsets=" +:+ str repr_str (span_list (offsets encoding))) ;;
  ret results.

(** *** [_generate_dart_code] *)

Definition dart_single (r : value) (_ : unit) : M unit :=
  print "  SingleEncodingTestCase(" ;;
  v <- getitem r "name" ;; print ("    name: '" +:+ str repr_str v +:+ "',") ;;
  v <- getitem r "input" ;; print ("    input: " +:+ repr repr_str v +:+ ",") ;;
  v <- getitem r "tokens" ;; print ("    expectedTokens: " +:+ str repr_str v +:+ ",") ;;
  v <- getitem r "ids" ;; print ("    expectedIds: " +:+ str repr_str v +:+ ",") ;;
  v <- getitem r "type_ids" ;; print ("    expectedTypeIds: " +:+ str repr_str v +:+ ",") ;;
  v <- getitem r "attention_mask" ;;
  print ("    expectedAttentionMask: " +:+ str repr_str v +:+ ",") ;;
  print "  ),".

Definition dart_pair (r : value) (_ : unit) : M unit :=
  print "  PairEncodingTestCase(" ;;
  v <- getitem r "name" ;; print ("    name: '" +:+ str repr_str v +:+ "',") ;;
  v <- getitem r "input_a" ;; print ("    inputA: " +:+ repr repr_str v +:+ ",") ;;
  v <- getitem r "input_b" ;; print ("    inputB: " +:+ repr repr_str v +:+ ",") ;;
  v <- getitem r "tokens" ;; print ("    expectedTokens: " +:+ str repr_str v +:+ ",") ;;
  v <- getitem r "ids" ;; print ("    expectedIds: " +:+ str repr_str v +:+ ",") ;;
  v <- getitem r "type_ids" ;; print ("    expectedTypeIds: " +:+ str repr_str v +:+ ",") ;;
  print "  ),".

Definition dart_edge (r : value) (_ : unit) : M unit :=
  print "  EdgeCaseTestCase(" ;;
  v <- getitem r "name" ;; print ("    name: '" +:+ str repr_str v +:+ "',") ;;
  v <- getitem r "input" ;; print ("    input: " +:+ repr repr_str v +:+ ",") ;;
  v <- getitem r "tokens" ;; print ("    expectedTokens: " +:+ str repr_str v +:+ ",") ;;
  v <- getitem r "ids" ;; print ("    expectedIds: " +:+ str repr_str v +:+ ",") ;;
  print "  ),".

Definition dart_span (o : value) : M string :=
  a <- getindex o 0 ;;
  b <- getindex o 1 ;;
  ret ("(" +:+ str repr_str a +:+ ", " +:+ str repr_str b +:+ ")").

Definition dart_offset (r : value) (_ : unit) : M unit :=
  v <- getitem r "offsets" ;;
  os <- iter v ;;
  offsets_dart <- comprehension dart_span os ;;
  print "  OffsetTestCase(" ;;
  v <- getitem r "name" ;; print ("    name: '" +:+ str repr_str v +:+ "',") ;;
  v <- getitem r "input" ;; print ("    input: " +:+ repr repr_str v +:+ ",") ;;
  print ("    expectedOffsets: [" +:+ str_join ", " offsets_dart +:+ "],") ;;
  print "  ),".

Definition _generate_dart_code (results : value) : M unit :=
  print "// Single Encoding Test Cases" ;;
  print "const _singleEncodingTestCases = [" ;;
  v <- getitem results "single_encoding" ;;
  rs <- iter v ;;
  for_each rs tt dart_single ;;
  print "];" ;;
  print EmptyString ;;
  print "// Pair Encoding Test Cases" ;;
  print "const _pairEncodingTestCases = [" ;;
  v <- getitem results "pair_encoding" ;;
  rs <- iter v ;;
  for_each rs tt dart_pair ;;
  print "];" ;;
  print EmptyString ;;
  print "// Edge Case Test Cases" ;;
  print "const _edgeCaseTestCases = [" ;;
  v <- getitem results "edge_cases" ;;
  rs <- iter v ;;
  for_each rs tt dart_edge ;;
  print "];" ;;
  print EmptyString ;;
  print "// Offset Test Cases" ;;
  print "const _offsetTestCases = [" ;;
  v <- getitem results "offset_tests" ;;
  rs <- iter v ;;
  for_each rs tt dart_offset ;;
  print "];".

(** *** [main] *)

Definition empty_results : value :=
  Dict [("single_encoding", List []);
        ("pair_encoding", List []);
        ("edge_cases", List []);
        ("offset_tests", List [])]%string.

Definition main : M unit :=
  let vocab_path := "vocab.txt"%string in
  found <- path_exists vocab_path ;;
  (if negb found
   then print "ERROR: vocab.txt not found in current directory." ;; sys_exit 1
   else ret tt) ;;
  print "Loading HuggingFace BertWordPieceTokenizer..." ;;
  tokenizer <- new_tokenizer vocab_path true true ;;
  let results := empty_results in
  print (nl +:+ "--- Single Encoding Tests ---") ;;
  results <- for_each SINGLE_ENCODING_TESTS results (single_body tokenizer) ;;
  print (nl +:+ "--- Pair Encoding Tests ---") ;;
  results <- for_each PAIR_ENCODING_TESTS results (pair_body tokenizer) ;;
  print (nl +:+ "--- Edge Case Tests ---") ;;
  results <- for_each EDGE_CASE_TESTS results (edge_body tokenizer) ;;
  print (nl +:+ "--- Offset Tests ---") ;;
  results <- for_each OFFSET_TESTS results (offset_body tokenizer) ;;
  let output_path := "hf_benchmark_data.json"%string in
  json_dump output_path results ;;
  print (nl +:+ "✅ Results saved to: " +:+ output_path) ;;
  print (nl +:+ "--- Dart Test Case Generation ---") ;;
  print ("Copy the following to update benchmark test cases:" +:+ nl) ;;
  _generate_dart_code results.

(** Running the file as a script: the module body, then
    [if __name__ == "__main__": main()]. *)
Definition script : M unit := import_guard ;; main.

(** *** Reading a trace *)

Definition printed (t : list event) : list string :=
  flat_map (fun e => match e with EvPrint line => [line] | _ => [] end) t.

Definition dumps (t : list event) : list (string * json) :=
  flat_map (fun e => match e with EvDump path doc => [(path, doc)] | _ => [] end) t.

Definition constructions (t : list event) : list (string * bool * bool * Tokenizer) :=
  flat_map (fun e => match e with
                     | EvNewTokenizer v lc sa i => [(v, lc, sa, i)]
                     | _ => []
                     end) t.

Definition encode_calls (t : list event) : list (Tokenizer * string * option string) :=
  flat_map (fun e => match e with EvEncode i a b => [(i, a, b)] | _ => [] end) t.

(** The paths an existence test found missing. *)
Definition failed_checks (t : list event) : list string :=
  flat_map (fun e => match e with EvExists path false => [path] | _ => [] end) t.

(** The record each loop stores for a catalog entry. *)
Definition single_record (tokenizer : Tokenizer) (case : string * string) : value :=
  single_result (fst case) (snd case) (encode tokenizer (snd case) None).

Definition pair_record (tokenizer : Tokenizer) (case : string * string * string) : value :=
  let '(name, text_a, text_b) := case in
  pair_result name text_a text_b (encode tokenizer text_a (Some text_b)).

Definition offset_record (tokenizer : Tokenizer) (case : string * string) : value :=
  offset_result (fst case) (snd case) (encode tokenizer (snd case) None).

Definition results_of (single pair edge offset : list value) : value :=
  Dict [("single_encoding", List single);
        ("pair_encoding", List pair);
        ("edge_cases", List edge);
        ("offset_tests", List offset)]%string.

(** *** Closed forms and properties of a run *)

(** The one tokenizer [main] builds. *)
Definition the_tokenizer : Tokenizer := BertWordPieceTokenizer "vocab.txt" true true.

(** [vocab.txt] is there and the import works. *)
Definition ready (world : World) : bool :=
  tokenizers_importable world
  && bool_decide ("vocab.txt"%string ∈ existing_files world).

(** The line each loop iteration prints, and its events. *)
Definition tokens_line (name : string) (e : Encoding) : string :=
  "  " +:+ name +:+ ": " +:+ str repr_str (str_list (tokens e)).

Definition offsets_line (name : string) (e : Encoding) : string :=
  "  " +:+ name +:+ ": offsets=" +:+ str repr_str (span_list (offsets e)).

Definition single_events (tk : Tokenizer) (case : string * string) : list event :=
  [EvEncode tk (snd case) None;
   EvPrint (tokens_line (fst case) (encode tk (snd case) None))].

Definition pair_events (tk : Tokenizer) (case : string * string * string)
  : list event :=
  let '(name, text_a, text_b) := case in
  [EvEncode tk text_a (Some text_b);
   EvPrint (tokens_line name (encode tk text_a (Some text_b)))].

Definition offset_events (tk : Tokenizer) (case : string * string) : list event :=
  [EvEncode tk (snd case) None;
   EvPrint (offsets_line (fst case) (encode tk (snd case) None))].

(** The lines of one Dart declaration, by test-case class. *)
Definition span_text (o : N * N) : string :=
  "(" +:+ pretty (fst o) +:+ ", " +:+ pretty (snd o) +:+ ")".

Definition single_declaration (name text : string) (e : Encoding) : list string :=
  ["  SingleEncodingTestCase(";
   "    name: '" +:+ name +:+ "',";
   "    input: " +:+ repr_str text +:+ ",";
   "    expectedTokens: " +:+ str repr_str (str_list (tokens e)) +:+ ",";
   "    expectedIds: " +:+ str repr_str (int_list (ids e)) +:+ ",";
   "    expectedTypeIds: " +:+ str repr_str (int_list (type_ids e)) +:+ ",";
   "    expectedAttentionMask: " +:+ str repr_str (int_list (attention_mask e)) +:+ ",";
   "  ),"]%string.

Definition pair_declaration (name text_a text_b : string) (e : Encoding) : list string :=
  ["  PairEncodingTestCase(";
   "    name: '" +:+ name +:+ "',";
   "    inputA: " +:+ repr_str text_a +:+ ",";
   "    inputB: " +:+ repr_str text_b +:+ ",";
   "    expectedTokens: " +:+ str repr_str (str_list (tokens e)) +:+ ",";
   "    expectedIds: " +:+ str repr_str (int_list (ids e)) +:+ ",";
   "    expectedTypeIds: " +:+ str repr_str (int_list (type_ids e)) +:+ ",";
   "  ),"]%string.

Definition edge_declaration (name text : string) (e : Encoding) : list string :=
  ["  EdgeCaseTestCase(";
   "    name: '" +:+ name +:+ "',";
   "    input: " +:+ repr_str text +:+ ",";
   "    expectedTokens: " +:+ str repr_str (str_list (tokens e)) +:+ ",";
   "    expectedIds: " +:+ str repr_str (int_list (ids e)) +:+ ",";
   "  ),"]%string.

Definition offset_declaration (name text : string) (e : Encoding) : list string :=
  ["  OffsetTestCase(";
   "    name: '" +:+ name +:+ "',";
   "    input: " +:+ repr_str text +:+ ",";
   "    expectedOffsets: [" +:+ str_join ", " (map span_text (offsets e)) +:+ "],";
   "  ),"]%string.

Definition dart_single_events (tk : Tokenizer) (case : string * string)
  : list event :=
  map EvPrint (single_declaration (fst case) (snd case) (encode tk (snd case) None)).

Definition dart_pair_events (tk : Tokenizer) (case : string * string * string)
  : list event :=
  let '(name, text_a, text_b) := case in
  map EvPrint (pair_declaration name text_a text_b (encode tk text_a (Some text_b))).

Definition dart_edge_events (tk : Tokenizer) (case : string * string)
  : list event :=
  map EvPrint (edge_declaration (fst case) (snd case) (encode tk (snd case) None)).

Definition dart_offset_events (tk : Tokenizer) (case : string * string)
  : list event :=
  map EvPrint (offset_declaration (fst case) (snd case) (encode tk (snd case) None)).

(** [results] when the four loops are done. *)
Definition final_results (tk : Tokenizer) : value :=
  results_of (map (single_record tk) SINGLE_ENCODING_TESTS)
             (map (pair_record tk) PAIR_ENCODING_TESTS)
             (map (single_record tk) EDGE_CASE_TESTS)
             (map (offset_record tk) OFFSET_TESTS).

(** What [_generate_dart_code] prints for them. *)
Definition dart_trace (tk : Tokenizer) : list event :=
  EvPrint "// Single Encoding Test Cases" ::
  EvPrint "const _singleEncodingTestCases = [" ::
  (flat_map (dart_single_events tk) SINGLE_ENCODING_TESTS ++
   EvPrint "];" :: EvPrint EmptyString ::
   EvPrint "// Pair Encoding Test Cases" ::
   EvPrint "const _pairEncodingTestCases = [" ::
   (flat_map (dart_pair_events tk) PAIR_ENCODING_TESTS ++
    EvPrint "];" :: EvPrint EmptyString ::
    EvPrint "// Edge Case Test Cases" ::
    EvPrint "const _edgeCaseTestCases = [" ::
    (flat_map (dart_edge_events tk) EDGE_CASE_TESTS ++
     EvPrint "];" :: EvPrint EmptyString ::
     EvPrint "// Offset Test Cases" ::
     EvPrint "const _offsetTestCases = [" ::
     (flat_map (dart_offset_events tk) OFFSET_TESTS ++ [EvPrint "];"])))).

(** The trace of [main] when [vocab.txt] exists. *)
Definition success_trace : list event :=
  let tk := the_tokenizer in
  EvExists "vocab.txt" true ::
  EvPrint "Loading HuggingFace BertWordPieceTokenizer..." ::
  EvNewTokenizer "vocab.txt" true true tk ::
  EvPrint (nl +:+ "--- Single Encoding Tests ---") ::
  (flat_map (single_events tk) SINGLE_ENCODING_TESTS ++
   EvPrint (nl +:+ "--- Pair Encoding Tests ---") ::
   (flat_map (pair_events tk) PAIR_ENCODING_TESTS ++
    EvPrint (nl +:+ "--- Edge Case Tests ---") ::
    (flat_map (single_events tk) EDGE_CASE_TESTS ++
     EvPrint (nl +:+ "--- Offset Tests ---") ::
     (flat_map (offset_events tk) OFFSET_TESTS ++
      EvDump "hf_benchmark_data.json" (to_json (final_results tk)) ::
      EvPrint (nl +:+ "✅ Results saved to: hf_benchmark_data.json") ::
      EvPrint (nl +:+ "--- Dart Test Case Generation ---") ::
      EvPrint ("Copy the following to update benchmark test cases:" +:+ nl) ::
      dart_trace tk)))).

(** The traces of the two guards. *)
Definition import_failure_trace : list event :=
  [EvPrint "ERROR: tokenizers package not installed.";
   EvPrint "Run: pip install tokenizers"].

Definition missing_vocab_trace : list event :=
  [EvExists "vocab.txt" false;
   EvPrint "ERROR: vocab.txt not found in current directory."].

(** The file [main] writes. *)
Definition output_path : string := "hf_benchmark_data.json".

(** The encoding arrays a record carries are those of [e]. *)
Definition carries (e : Encoding) (r : json) : Prop :=
  member "tokens" r = Some (JArray (map JString (tokens e)))
  ∧ member "ids" r = Some (JArray (map JNumber (ids e)))
  ∧ member "offsets" r
    = Some (JArray (map (fun o => JArray [JNumber (fst o); JNumber (snd o)]) (offsets e))).

Definition single_matches (tk : Tokenizer) (case : string * string) (r : json) : Prop :=
  member "name" r = Some (JString (fst case))
  ∧ member "input" r = Some (JString (snd case))
  ∧ carries (encode tk (snd case) None) r.

Definition pair_matches (tk : Tokenizer) (case : string * string * string) (r : json)
  : Prop :=
  let '(name, text_a, text_b) := case in
  member "name" r = Some (JString name)
  ∧ member "input_a" r = Some (JString text_a)
  ∧ member "input_b" r = Some (JString text_b)
  ∧ carries (encode tk text_a (Some text_b)) r.

(** One record per catalog entry, in catalog order, in the document and in
    the Dart text. *)
Definition follows_catalogs (tk : Tokenizer) (t : list event) : Prop :=
  exists doc,
    dumps t = [(output_path, doc)]
    ∧ Forall2 (single_matches tk) SINGLE_ENCODING_TESTS (records_under "single_encoding" doc)
    ∧ Forall2 (pair_matches tk) PAIR_ENCODING_TESTS (records_under "pair_encoding" doc)
    ∧ Forall2 (single_matches tk) EDGE_CASE_TESTS (records_under "edge_cases" doc)
    ∧ Forall2 (single_matches tk) OFFSET_TESTS (records_under "offset_tests" doc)
    ∧ declared_names (printed t)
      = map fst SINGLE_ENCODING_TESTS ++ map (fun c => fst (fst c)) PAIR_ENCODING_TESTS
        ++ map fst EDGE_CASE_TESTS ++ map fst OFFSET_TESTS.

(** The seven fields the spec lists, under the names the script uses. *)
Definition listed_fields : list string :=
  ["name"; "input"; "tokens"; "ids"; "type_ids"; "attention_mask"; "offsets"]%string.

Definition pair_fields : list string :=
  ["name"; "input_a"; "input_b"; "tokens"; "ids"; "type_ids"; "attention_mask";
   "offsets"]%string.

Definition offset_fields : list string :=
  ["name"; "input"; "tokens"; "ids"; "offsets"]%string.

Definition dart_declarations : list (string * list string) :=
  map (fun _ => ("SingleEncodingTestCase",
                 ["name"; "input"; "expectedTokens"; "expectedIds"; "expectedTypeIds";
                  "expectedAttentionMask"])%string) SINGLE_ENCODING_TESTS
  ++ map (fun _ => ("PairEncodingTestCase",
                    ["name"; "inputA"; "inputB"; "expectedTokens"; "expectedIds";
                     "expectedTypeIds"])%string) PAIR_ENCODING_TESTS
  ++ map (fun _ => ("EdgeCaseTestCase",
                    ["name"; "input"; "expectedTokens"; "expectedIds"])%string)
         EDGE_CASE_TESTS
  ++ map (fun _ => ("OffsetTestCase", ["name"; "input"; "expectedOffsets"])%string)
         OFFSET_TESTS.

(** Which fields each serialized record has. *)
Definition has_documented_fields (t : list event) : Prop :=
  exists doc,
    dumps t = [(output_path, doc)]
    ∧ Forall (fun r => member_names r = listed_fields) (records_under "single_encoding" doc)
    ∧ Forall (fun r => member_names r = pair_fields) (records_under "pair_encoding" doc)
    ∧ Forall (fun r => member_names r = listed_fields) (records_under "edge_cases" doc)
    ∧ Forall (fun r => member_names r = offset_fields) (records_under "offset_tests" doc)
    ∧ declarations (printed t) = dart_declarations.

(** The claim as the spec words it: every record of every catalog has all
    seven listed fields. *)
Definition has_all_listed (r : json) : bool :=
  forallb (fun f => match member f r with Some _ => true | None => false end) listed_fields.

Definition every_record_has_all_listed (doc : json) : bool :=
  forallb has_all_listed
    (records_under "single_encoding" doc ++ records_under "pair_encoding" doc
     ++ records_under "edge_cases" doc ++ records_under "offset_tests" doc).

(** *** What [_generate_dart_code] asks of its argument *)

Definition is_print (e : event) : bool :=
  match e with
  | EvPrint _ => true
  | _ => false
  end.

(** The keys each declaration reads, in the order it reads them. *)
Definition single_keys : list string :=
  ["name"; "input"; "tokens"; "ids"; "type_ids"; "attention_mask"]%string.

Definition pair_keys : list string :=
  ["name"; "input_a"; "input_b"; "tokens"; "ids"; "type_ids"]%string.

Definition edge_keys : list string := ["name"; "input"; "tokens"; "ids"]%string.

Definition first_missing (ks : list string) (items : list (string * value))
  : option string :=
  List.find (fun k => match assoc k items with Some _ => false | None => true end) ks.

(** The exception subscripting [r] with the keys [ks], in order, ends in. *)
Definition record_error (ks : list string) (r : value) : option exn :=
  match r with
  | Dict items => option_map KeyError (first_missing ks items)
  | _ => Some TypeError
  end.

Definition has_keys (ks : list string) (r : value) : bool :=
  match record_error ks r with
  | None => true
  | Some _ => false
  end.

(** An offset the comprehension can index at 0 and 1. *)
Definition is_span (o : value) : bool :=
  match o with
  | List xs | Tuple xs => (2 <=? length xs)%nat
  | _ => false
  end.

Definition offset_ok (r : value) : bool :=
  match r with
  | Dict items =>
      match assoc "offsets" items, assoc "name" items, assoc "input" items with
      | Some (List os), Some _, Some _ | Some (Tuple os), Some _, Some _ =>
          forallb is_span os
      | _, _, _ => false
      end
  | _ => false
  end.

(** The records stored under [key], when it holds a list or a tuple. *)
Definition records_of (key : string) (results : value) : list value :=
  match results with
  | Dict items =>
      match assoc key items with
      | Some (List rs) | Some (Tuple rs) => rs
      | _ => []
      end
  | _ => []
  end.

Definition holds_records (key : string) (results : value) : bool :=
  match results with
  | Dict items =>
      match assoc key items with
      | Some (List _) | Some (Tuple _) => true
      | _ => false
      end
  | _ => false
  end.

(** [results] has the four lists, and every record the keys its declaration
    reads. *)
Definition dart_ready (results : value) : bool :=
  holds_records "single_encoding" results
  && forallb (has_keys single_keys) (records_of "single_encoding" results)
  && holds_records "pair_encoding" results
  && forallb (has_keys pair_keys) (records_of "pair_encoding" results)
  && holds_records "edge_cases" results
  && forallb (has_keys edge_keys) (records_of "edge_cases" results)
  && holds_records "offset_tests" results
  && forallb offset_ok (records_of "offset_tests" results).

Definition single_class : string * list string :=
  ("SingleEncodingTestCase",
   ["name"; "input"; "expectedTokens"; "expectedIds"; "expectedTypeIds";
    "expectedAttentionMask"])%string.

Definition pair_class : string * list string :=
  ("PairEncodingTestCase",
   ["name"; "inputA"; "inputB"; "expectedTokens"; "expectedIds"; "expectedTypeIds"])%string.

Definition edge_class : string * list string :=
  ("EdgeCaseTestCase", ["name"; "input"; "expectedTokens"; "expectedIds"])%string.

Definition offset_class : string * list string :=
  ("OffsetTestCase", ["name"; "input"; "expectedOffsets"])%string.

(** The declarations [_generate_dart_code] prints for [results]. *)
Definition classes_of (results : value) : list (string * list string) :=
  map (fun _ => single_class) (records_of "single_encoding" results)
  ++ map (fun _ => pair_class) (records_of "pair_encoding" results)
  ++ map (fun _ => edge_class) (records_of "edge_cases" results)
  ++ map (fun _ => offset_class) (records_of "offset_tests" results).

(** What a loop body of [_generate_dart_code] leaves in the trace when it returns: prints
    only, read back as one declaration of class [cls]. *)
Definition declares (cls : string * list string) (m : M unit) : Prop :=
  exists t,
    m = (Normal tt, t)
    ∧ forallb is_print t = true
    ∧ forall rest, declarations (printed t ++ rest) = cls :: declarations rest.

(** *** Reading names *)

(** Single quotes in a line. *)
Fixpoint quote_count (s : string) : nat :=
  match s with
  | EmptyString => 0
  | String c rest => (if Ascii.eqb c "'" then 1 else 0) + quote_count rest
  end.

(** The [name:] lines whose string literal is closed early by a quote inside
    the name. *)
Definition broken_name_lines (lines : list string) : list string :=
  List.filter (fun l => String.prefix "    name: '" l && (2 <? quote_count l)%nat) lines.

(** The names of all records of the document, in document order. *)
Definition record_names (doc : json) : list string :=
  flat_map (fun key =>
              flat_map (fun r => match member "name" r with
                                 | Some (JString n) => [n]
                                 | _ => []
                                 end) (records_under key doc))
           ["single_encoding"; "pair_encoding"; "edge_cases"; "offset_tests"]%string.

(** *** The standard output as text

    [print] writes its argument and a newline; a line of the output is what
    stands between two newlines, whichever call wrote it. *)

Fixpoint one_line (s : string) : bool :=
  match s with
  | EmptyString => true
  | String c rest => negb (Ascii.eqb c "010") && one_line rest
  end.

Definition stdout (t : list event) : string :=
  fold_right (fun line out => line +:+ nl +:+ out) EmptyString (printed t).

Fixpoint split_lines (s : string) : list string :=
  match s with
  | EmptyString => []
  | String c rest =>
      if Ascii.eqb c "010" then EmptyString :: split_lines rest
      else
        match split_lines rest with
        | [] => [String c EmptyString]
        | l :: ls => String c l :: ls
        end
  end.

Definition output_lines (t : list event) : list string := split_lines (stdout t).

(** [v] formats without a raw newline, through [str] and through [repr]. *)
Definition one_line_value (v : value) : bool :=
  one_line (str repr_str v) && one_line (repr repr_str v).

(** So do the values [r] holds under the keys [ks]. *)
Definition one_line_record (ks : list string) (r : value) : bool :=
  match r with
  | Dict items =>
      forallb (fun k => match assoc k items with
                        | Some v => one_line_value v
                        | None => true
                        end) ks
  | _ => true
  end.

Definition one_line_span (o : value) : bool :=
  match o with
  | List xs | Tuple xs => forallb one_line_value (take 2 xs)
  | _ => true
  end.

Definition one_line_offsets (r : value) : bool :=
  one_line_record ["name"; "input"]%string r
  && match r with
     | Dict items =>
         match assoc "offsets" items with
         | Some (List os) | Some (Tuple os) => forallb one_line_span os
         | _ => true
         end
     | _ => true
     end.

(** Nothing [_generate_dart_code] formats out of [results] holds a raw
    newline. *)
Definition renders_on_one_line (results : value) : bool :=
  forallb (one_line_record single_keys) (records_of "single_encoding" results)
  && forallb (one_line_record pair_keys) (records_of "pair_encoding" results)
  && forallb (one_line_record edge_keys) (records_of "edge_cases" results)
  && forallb one_line_offsets (records_of "offset_tests" results).

(** *** A declaration cut short *)

(** The Dart field printed for each key of a single-encoding record. *)
Definition single_fields : list (string * string) :=
  [("name", "name"); ("input", "input"); ("tokens", "expectedTokens");
   ("ids", "expectedIds"); ("type_ids", "expectedTypeIds");
   ("attention_mask", "expectedAttentionMask")]%string.

(** The fields printed before the first key that is missing. *)
Fixpoint printed_fields (fields : list (string * string)) (items : list (string * value))
  : list string :=
  match fields with
  | [] => []
  | (key, field) :: rest =>
      match assoc key items with
      | Some _ => field :: printed_fields rest items
      | None => []
      end
  end.

(** What is printed of the declaration of a record the generator fails on. *)
Definition partial_single (r : value) : string * list string :=
  ("SingleEncodingTestCase"%string,
   match r with
   | Dict items => printed_fields single_fields items
   | _ => []
   end).

(** *** The order of a run *)

Definition is_encode (e : event) : bool :=
  match e with
  | EvEncode _ _ _ => true
  | _ => false
  end.

(** The encode calls of a complete run, in order. *)
Definition expected_calls (tk : Tokenizer) : list (Tokenizer * string * option string) :=
  map (fun c => (tk, snd c, None)) SINGLE_ENCODING_TESTS
  ++ map (fun c => (tk, snd (fst c), Some (snd c))) PAIR_ENCODING_TESTS
  ++ map (fun c => (tk, snd c, None)) EDGE_CASE_TESTS
  ++ map (fun c => (tk, snd c, None)) OFFSET_TESTS.

End Program.

Arguments Normal {A} a.
Arguments SysExit {A} code.
Arguments Uncaught {A} e.

End Script.

(** * The script when the calls it makes can raise

    [Script] takes every call out of the script (into the tokenizers package,
    the file system, the standard output) as returning.  Here each of them
    can raise instead.  The program text is the same, over primitives that
    first ask whether the call raises; the script has no [try] around any of
    them, so the exception ends the run.  Exceptions that no call causes
    (KeyboardInterrupt, MemoryError) are not modelled. *)
Module Fallible.
Import Py Script.

Section Program.

Context `{Library}.

(** What goes wrong in a run.  [import_raises] is the exception, other than
    an ImportError, that [from tokenizers import ...] ends in;
    [call_raises h e] is the exception the call observed as [e] ends in when
    it is made after the events [h]. *)
Record Faults := {
  import_raises : option exn;
  call_raises : list event -> event -> option exn
}.

Variable f : Faults.
Variable w : World.

(** A computation reads what has happened so far. *)
Definition FM (A : Type) : Type := list event -> M A.

Definition ret {A : Type} (a : A) : FM A := fun _ => Script.ret a.

Definition bind {A B : Type} (m : FM A) (k : A -> FM B) : FM B :=
  fun h =>
    match m h with
    | (Normal a, t) => let '(r, t') := k a (h ++ t) in (r, t ++ t')
    | (SysExit c, t) => (SysExit c, t)
    | (Uncaught e, t) => (Uncaught e, t)
    end.

Notation "x <- m ;; k" := (bind m (fun x => k))
  (at level 100, m at next level, right associativity).
Notation "m ;; k" := (bind m (fun _ => k))
  (at level 100, right associativity).

(** The script's own operations on its values: they make no call. *)
Definition own {A : Type} (m : M A) : FM A := fun _ => m.

(** A call out of the script: it raises, or it happens and returns [a]. *)
Definition call {A : Type} (e : event) (a : A) : FM A :=
  fun h =>
    match call_raises f h e with
    | Some x => (Uncaught x, [])
    | None => (Normal a, [e])
    end.

Definition print (line : string) : FM unit := call (EvPrint line) tt.
Definition sys_exit {A : Type} (code : Z) : FM A := own (Script.sys_exit code).
Definition raise {A : Type} (e : exn) : FM A := own (Script.raise e).

Definition path_exists (path : string) : FM bool :=
  let found := bool_decide (path ∈ existing_files w) in
  call (EvExists path found) found.

Definition new_tokenizer (vocab : string) (lowercase strip_accents : bool) : FM Tokenizer :=
  let t := BertWordPieceTokenizer vocab lowercase strip_accents in
  call (EvNewTokenizer vocab lowercase strip_accents t) t.

Definition call_encode (t : Tokenizer) (text : string) (pair : option string) : FM Encoding :=
  call (EvEncode t text pair) (encode t text pair).

Definition json_dump (path : string) (obj : value) : FM unit :=
  call (EvDump path (to_json obj)) tt.

Definition getitem (v : value) (key : string) : FM value := own (Script.getitem v key).
Definition iter (v : value) : FM (list value) := own (Script.iter v).
Definition append_at (d : value) (key : string) (x : value) : FM value :=
  own (Script.append_at d key x).

Fixpoint for_each {A S : Type} (l : list A) (s : S) (body : A -> S -> FM S) : FM S :=
  match l with
  | [] => ret s
  | x :: rest => s' <- body x s ;; for_each rest s' body
  end.

(** *** The import guard

    [except ImportError] catches the import failing as [World] has it; any
    other exception passes through. *)
Definition import_guard : FM unit :=
  match import_raises f with
  | Some e => raise e
  | None =>
      if tokenizers_importable w then ret tt
      else
        print "ERROR: tokenizers package not installed." ;;
        print "Run: pip install tokenizers" ;;
        sys_exit 1
  end.

(** *** The four loops of [main] *)

Definition single_body (tokenizer : Tokenizer) (case : string * string) (results : value)
  : FM value :=
  let '(name, text) := case in
  encoding <- call_encode tokenizer text None ;;
  let result := single_result name text encoding in
  results <- append_at results "single_encoding" result ;;
  print ("  " +:+ name +:+ ": " +:+ str repr_str (str_list (tokens encoding))) ;;
  ret results.

Definition pair_body (tokenizer : Tokenizer) (case : string * string * string)
  (results : value) : FM value :=
  let '(name, text_a, text_b) := case in
  encoding <- call_encode tokenizer text_a (Some text_b) ;;
  let result := pair_result name text_a text_b encoding in
  results <- append_at results "pair_encoding" result ;;
  print ("  " +:+ name +:+ ": " +:+ str repr_str (str_list (tokens encoding))) ;;
  ret results.

Definition edge_body (tokenizer : Tokenizer) (case : string * string) (results : value)
  : FM value :=
  let '(name, text) := case in
  encoding <- call_encode tokenizer text None ;;
  let result := single_result name text encoding in
  results <- append_at results "edge_cases" result ;;
  print ("  " +:+ name +:+ ": " +:+ str repr_str (str_list (tokens encoding))) ;;
  ret results.

Definition offset_body (tokenizer : Tokenizer) (case : string * string) (results : value)
  : FM value :=
  let '(name, text) := case in
  encoding <- call_encode tokenizer text None ;;
  let result := offset_result name text encoding in
  results <- append_at results "offset_tests" result ;;
  print ("  " +:+ name +:+ ": offsets=" +:+ str repr_str (span_list (offsets encoding))) ;;
  ret results.

(** *** [_generate_dart_code] *)

Definition dart_single (r : value) (_ : unit) : FM unit :=
  print "  SingleEncodingTestCase(" ;;
  v <- getitem r "name" ;; print ("    name: '" +:+ str repr_str v +:+ "',") ;;
  v <- getitem r "input" ;; print ("    input: " +:+ repr repr_str v +:+ ",") ;;
  v <- getitem r "tokens" ;; print ("    expectedTokens: " +:+ str repr_str v +:+ ",") ;;
  v <- getitem r "ids" ;; print ("    expectedIds: " +:+ str repr_str v +:+ ",") ;;
  v <- getitem r "type_ids" ;; print ("    expectedTypeIds: " +:+ str repr_str v +:+ ",") ;;
  v <- getitem r "attention_mask" ;;
  print ("    expectedAttentionMask: " +:+ str repr_str v +:+ ",") ;;
  print "  ),".

Definition dart_pair (r : value) (_ : unit) : FM unit :=
  print "  PairEncodingTestCase(" ;;
  v <- getitem r "name" ;; print ("    name: '" +:+ str repr_str v +:+ "',") ;;
  v <- getitem r "input_a" ;; print ("    inputA: " +:+ repr repr_str v +:+ ",") ;;
  v <- getitem r "input_b" ;; print ("    inputB: " +:+ repr repr_str v +:+ ",") ;;
  v <- getitem r "tokens" ;; print ("    expectedTokens: " +:+ str repr_str v +:+ ",") ;;
  v <- getitem r "ids" ;; print ("    expectedIds: " +:+ str repr_str v +:+ ",") ;;
  v <- getitem r "type_ids" ;; print ("    expectedTypeIds: " +:+ str repr_str v +:+ ",") ;;
  print "  ),".

Definition dart_edge (r : value) (_ : unit) : FM unit :=
  print "  EdgeCaseTestCase(" ;;
  v <- getitem r "name" ;; print ("    name: '" +:+ str repr_str v +:+ "',") ;;
  v <- getitem r "input" ;; print ("    input: " +:+ repr repr_str v +:+ ",") ;;
  v <- getitem r "tokens" ;; print ("    expectedTokens: " +:+ str repr_str v +:+ ",") ;;
  v <- getitem r "ids" ;; print ("    expectedIds: " +:+ str repr_str v +:+ ",") ;;
  print "  ),".

(** The comprehension over the offsets only subscripts and formats. *)
Definition dart_offset (r : value) (_ : unit) : FM unit :=
  v <- getitem r "offsets" ;;
  os <- iter v ;;
  offsets_dart <- own (comprehension dart_span os) ;;
  print "  OffsetTestCase(" ;;
  v <- getitem r "name" ;; print ("    name: '" +:+ str repr_str v +:+ "',") ;;
  v <- getitem r "input" ;; print ("    input: " +:+ repr repr_str v +:+ ",") ;;
  print ("    expectedOffsets: [" +:+ str_join ", " offsets_dart +:+ "],") ;;
  print "  ),".

Definition _generate_dart_code (results : value) : FM unit :=
  print "// Single Encoding Test Cases" ;;
  print "const _singleEncodingTestCases = [" ;;
  v <- getitem results "single_encoding" ;;
  rs <- iter v ;;
  for_each rs tt dart_single ;;
  print "];" ;;
  print EmptyString ;;
  print "// Pair Encoding Test Cases" ;;
  print "const _pairEncodingTestCases = [" ;;
  v <- getitem results "pair_encoding" ;;
  rs <- iter v ;;
  for_each rs tt dart_pair ;;
  print "];" ;;
  print EmptyString ;;
  print "// Edge Case Test Cases" ;;
  print "const _edgeCaseTestCases = [" ;;
  v <- getitem results "edge_cases" ;;
  rs <- iter v ;;
  for_each rs tt dart_edge ;;
  print "];" ;;
  print EmptyString ;;
  print "// Offset Test Cases" ;;
  print "const _offsetTestCases = [" ;;
  v <- getitem results "offset_tests" ;;
  rs <- iter v ;;
  for_each rs tt dart_offset ;;
  print "];".

(** *** [main] *)

Definition main : FM unit :=
  let vocab_path := "vocab.txt"%string in
  found <- path_exists vocab_path ;;
  (if negb found
   then print "ERROR: vocab.txt not found in current directory." ;; sys_exit 1
   else ret tt) ;;
  print "Loading HuggingFace BertWordPieceTokenizer..." ;;
  tokenizer <- new_tokenizer vocab_path true true ;;
  let results := empty_results in
  print (nl +:+ "--- Single Encoding Tests ---") ;;
  results <- for_each SINGLE_ENCODING_TESTS results (single_body tokenizer) ;;
  print (nl +:+ "--- Pair Encoding Tests ---") ;;
  results <- for_each PAIR_ENCODING_TESTS results (pair_body tokenizer) ;;
  print (nl +:+ "--- Edge Case Tests ---") ;;
  results <- for_each EDGE_CASE_TESTS results (edge_body tokenizer) ;;
  print (nl +:+ "--- Offset Tests ---") ;;
  results <- for_each OFFSET_TESTS results (offset_body tokenizer) ;;
  let output_path := "hf_benchmark_data.json"%string in
  json_dump output_path results ;;
  print (nl +:+ "✅ Results saved to: " +:+ output_path) ;;
  print (nl +:+ "--- Dart Test Case Generation ---") ;;
  print ("Copy the following to update benchmark test cases:" +:+ nl) ;;
  _generate_dart_code results.

Definition script : FM unit := import_guard ;; main.

(** A run starts with nothing done. *)
Definition run : M unit := script [].

(** *** Where a run stops *)

(** The events of [t] that happen, after [h], before the first call that
    raises, and what it raises. *)
Fixpoint first_fault (h t : list event) : option (list event * exn) :=
  match t with
  | [] => None
  | e :: rest =>
      match call_raises f h e with
      | Some x => Some ([], x)
      | None =>
          match first_fault (h ++ [e]) rest with
          | Some (done, x) => Some (e :: done, x)
          | None => None
          end
      end
  end.

(** A computation of [Script] interrupted at the first call that raises. *)
Definition cut {A : Type} (h : list event) (m : M A) : M A :=
  match first_fault h (trace_of m) with
  | Some (done, x) => (Uncaught x, done)
  | None => m
  end.

(** [m'] does what [m] does until a call raises. *)
Definition follows {A : Type} (m' : FM A) (m : M A) : Prop :=
  forall h, m' h = cut h m.

(** What the run does when nothing raises: it goes through, or stops at the
    guard that fires. *)
Definition planned : M unit :=
  if ready w then (Normal tt, success_trace)
  else if tokenizers_importable w then (SysExit 1, missing_vocab_trace)
  else (SysExit 1, import_failure_trace).

(** How a run ends, by what raises. *)
Definition ending : M unit :=
  match import_raises f with
  | Some e => (Uncaught e, [])
  | None => cut [] planned
  end.

(** C3 as the spec words it: the run ended at a check for a missing file
    that called exit. *)
Definition ended_at_missing_file_check (m : M unit) : bool :=
  match result_of m with
  | SysExit _ => match failed_checks (trace_of m) with [] => false | _ :: _ => true end
  | _ => false
  end.

Definition ended_normally (m : M unit) : bool :=
  match result_of m with
  | Normal _ => true
  | _ => false
  end.

End Program.

End Fallible.

Module WordPiece.

(** A character is a Unicode code point; offsets count characters. *)
Abbreviation char := N (only parsing).
Abbreviation text := (list N) (only parsing).

Definition of_ascii (s : string) : text :=
  map N_of_ascii (list_ascii_of_string s).

Definition CLS : text := of_ascii "[CLS]".
Definition SEP : text := of_ascii "[SEP]".
Definition UNK : text := of_ascii "[UNK]".
Definition PAD : text := of_ascii "[PAD]".
Definition MASK : text := of_ascii "[MASK]".
Definition continuation_marker : text := of_ascii "##".
Definition default_maxInputCharsPerWord : nat := 100.

(** The Unicode character database the normalizer and the pre-tokenizer
    consult: case folding, canonical decomposition and the character
    classes. *)
Class Unicode := {
  fold_case : char -> text;
  decompose : char -> text;
  is_combining_mark : char -> bool;
  is_control : char -> bool;
  is_whitespace : char -> bool;
  is_punctuation : char -> bool;
  is_cjk : char -> bool
}.

(** Modelled from the spec: the vocabulary (section 3) of the tokenizer, which
    is not among the source files.  Token string to id; the id of a token is
    its line number in the vocabulary file. *)
Abbreviation Vocabulary := (gmap (list N) nat) (only parsing).

Inductive VocabularyError :=
| VocabularyLoadFailure
| VocabularyFormat (line : nat)
| VocabularyIncomplete (token : text).

(** Modelled from the spec: loading (sections 6 and 7).  [None] stands for a
    missing or unreadable file; an empty line or a token seen before is a
    format error naming the line. *)
Fixpoint load_lines (line : nat) (lines : list text) (acc : Vocabulary)
  : Vocabulary + VocabularyError :=
  match lines with
  | [] => inl acc
  | t :: rest =>
      match t, acc !! t with
      | [], _ => inr (VocabularyFormat line)
      | _, Some _ => inr (VocabularyFormat line)
      | _, None => load_lines (S line) rest (<[t := line]> acc)
      end
  end.

(** The tokens every vocabulary must contain (section 3). *)
Definition reserved_tokens : list text := [PAD; UNK; CLS; SEP; MASK].

Definition missing_reserved (vocab : Vocabulary) : option text :=
  List.find (fun t => match vocab !! t with Some _ => false | None => true end)
            reserved_tokens.

(** Modelled from the spec: what loading returns.  A file that lacks a
    reserved token does not make a vocabulary (section 3: it must contain
    them); the spec names no error for it, [VocabularyIncomplete] stands for
    it. *)
Definition load_vocabulary (file : option (list text)) : Vocabulary + VocabularyError :=
  match file with
  | None => inr VocabularyLoadFailure
  | Some lines =>
      match load_lines 0 lines ∅ with
      | inl vocab =>
          match missing_reserved vocab with
          | None => inl vocab
          | Some t => inr (VocabularyIncomplete t)
          end
      | inr e => inr e
      end
  end.

(** The reserved tokens [encode] itself needs. *)
Definition has_reserved (vocab : Vocabulary) : Prop :=
  is_Some (vocab !! CLS) ∧ is_Some (vocab !! SEP) ∧ is_Some (vocab !! UNK).

Record NormalizedChar := {
  nc_char : char;
  nc_start : nat;
  nc_end : nat
}.

Inductive ChunkKind := Word | Punctuation.

Record Chunk := {
  chunk_kind : ChunkKind;
  chunk_chars : list NormalizedChar;
  chunk_start : nat;
  chunk_end : nat
}.

Record Token := {
  tok_id : nat;
  tok_text : text;
  tok_continuation : bool;
  tok_start : nat;
  tok_end : nat
}.

Record Encoding := {
  enc_tokens : list Token;
  enc_ids : list nat;
  enc_typeIds : list nat;
  enc_attentionMask : list nat;
  enc_offsets : list (nat * nat)
}.

Definition surface_forms (e : Encoding) : list text := map tok_text (enc_tokens e).

(** Tokens as surface string and original span. *)
Definition spans (ts : list Token) : list (text * (nat * nat)) :=
  map (fun t => (tok_text t, (tok_start t, tok_end t))) ts.

(** The original span covered by a run of normalized characters. *)
Definition span_start (cs : list NormalizedChar) : nat :=
  match cs with
  | [] => 0
  | c :: _ => nc_start c
  end.

Definition span_end (cs : list NormalizedChar) : nat :=
  match last cs with
  | None => 0
  | Some c => nc_end c
  end.

Definition mk_chunk (kind : ChunkKind) (cs : list NormalizedChar) : Chunk :=
  {| chunk_kind := kind; chunk_chars := cs;
     chunk_start := span_start cs; chunk_end := span_end cs |}.

Section Tokenizer.

Context `{Unicode}.

(** Modelled from the spec: the Normalizer (section 4.1), absent from the
    source files.  Whitespace is tested before the control class, so that tab
    and newline, which the spec lists as whitespace, become a space. *)
Definition clean (c : char) : text :=
  if is_whitespace c then [32%N]
  else if (c =? 0)%N || is_control c then []
  else [c].

Definition normalize_char (lowercase stripAccents : bool) (c : char) : text :=
  let folded := if lowercase then fold_case c else [c] in
  let stripped :=
    if stripAccents
    then List.filter (fun d => negb (is_combining_mark d)) (flat_map decompose folded)
    else folded in
  flat_map clean stripped.

Fixpoint normalize_from (i : nat) (t : text) (lowercase stripAccents : bool)
  : list NormalizedChar :=
  match t with
  | [] => []
  | c :: rest =>
      map (fun d => {| nc_char := d; nc_start := i; nc_end := S i |})
          (normalize_char lowercase stripAccents c)
      ++ normalize_from (S i) rest lowercase stripAccents
  end.

(** Modelled from the spec: [normalize] of section 4.1; every output
    character keeps the span of the input character it came from. *)
Definition normalize (t : text) (lowercase stripAccents : bool) : list NormalizedChar :=
  normalize_from 0 t lowercase stripAccents.

(** Modelled from the spec: the PreTokenizer (section 4.2), absent from the
    source files.  [cur] is the word being collected. *)
Definition is_space (c : char) : bool := (c =? 32)%N || is_whitespace c.

Definition flush (cur : list NormalizedChar) : list Chunk :=
  match cur with
  | [] => []
  | _ => [mk_chunk Word cur]
  end.

Fixpoint split_chunks (cur : list NormalizedChar) (rest : list NormalizedChar)
  : list Chunk :=
  match rest with
  | [] => flush cur
  | c :: rest' =>
      if is_space (nc_char c) then flush cur ++ split_chunks [] rest'
      else if is_punctuation (nc_char c)
      then flush cur ++ mk_chunk Punctuation [c] :: split_chunks [] rest'
      else if is_cjk (nc_char c)
      then flush cur ++ mk_chunk Word [c] :: split_chunks [] rest'
      else split_chunks (cur ++ [c]) rest'
  end.

(** Modelled from the spec: [preTokenize] of section 4.2.  Whitespace is
    dropped, a punctuation or CJK character is a chunk of its own, other
    runs are word chunks. *)
Definition preTokenize (normalized : list NormalizedChar) : list Chunk :=
  split_chunks [] normalized.

(** A character the normalizer leaves as it is and the pre-tokenizer keeps
    inside a word. *)
Definition plain (lowercase stripAccents : bool) (c : char) : Prop :=
  normalize_char lowercase stripAccents c = [c]
  ∧ is_space c = false ∧ is_punctuation c = false ∧ is_cjk c = false.

(** The characters of [t], each with the span it occupies from offset [i]
    on. *)
Fixpoint at_positions (i : nat) (t : text) : list NormalizedChar :=
  match t with
  | [] => []
  | c :: rest => {| nc_char := c; nc_start := i; nc_end := S i |} :: at_positions (S i) rest
  end.

End Tokenizer.

(** Modelled from the spec: the WordPieceModel (section 4.3), absent from the
    source files. *)
Section Model.

Variable vocab : Vocabulary.

(** The characters of the chunk from [cursor] up to [stop]. *)
Definition sub_chars (cs : list NormalizedChar) (cursor stop : nat) : list NormalizedChar :=
  take (stop - cursor) (drop cursor cs).

(** The string looked up for that substring: marked as a continuation when it
    does not start the chunk. *)
Definition candidate (cs : list NormalizedChar) (cursor stop : nat) : text :=
  let s := map nc_char (sub_chars cs cursor stop) in
  if (cursor =? 0)%nat then s else continuation_marker ++ s.

(** Modelled from the spec: step 2a of section 4.3.  The end is scanned
    downward from [cursor + n] to [cursor + 1]. *)
Fixpoint longest_match (cs : list NormalizedChar) (cursor n : nat) : option (nat * nat) :=
  match n with
  | O => None
  | S n' =>
      match vocab !! candidate cs cursor (cursor + n) with
      | Some id => Some (cursor + n, id)
      | None => longest_match cs cursor n'
      end
  end.

Inductive Segmentation :=
| Segmented (ts : list Token)
| Unsegmentable
| OutOfFuel.

(** Modelled from the spec: step 2 of section 4.3, the loop over the cursor.
    [fuel] bounds the iterations; the chunk length is always enough (see
    [segment_has_fuel]). *)
Fixpoint segment (fuel : nat) (cs : list NormalizedChar) (cursor : nat) : Segmentation :=
  if (length cs <=? cursor)%nat then Segmented []
  else
    match fuel with
    | O => OutOfFuel
    | S fuel' =>
        match longest_match cs cursor (length cs - cursor) with
        | None => Unsegmentable
        | Some (stop, id) =>
            let piece := sub_chars cs cursor stop in
            let t := {| tok_id := id;
                        tok_text := candidate cs cursor stop;
                        tok_continuation := negb (cursor =? 0)%nat;
                        tok_start := span_start piece;
                        tok_end := span_end piece |} in
            match segment fuel' cs stop with
            | Segmented ts => Segmented (t :: ts)
            | other => other
            end
        end
    end.

Definition unknown_token (c : Chunk) : option (list Token) :=
  id ← vocab !! UNK;
  Some [{| tok_id := id; tok_text := UNK; tok_continuation := false;
           tok_start := chunk_start c; tok_end := chunk_end c |}].

(** Modelled from the spec: [tokenize] of section 4.3 (steps 1, 2 and 2c).
    [None] only when [[UNK]] is needed and the vocabulary lacks it (or the
    fuel ran out, which [segment_has_fuel] excludes). *)
Definition tokenize (c : Chunk) (maxInputCharsPerWord : nat) : option (list Token) :=
  let cs := chunk_chars c in
  if (maxInputCharsPerWord <? length cs)%nat then unknown_token c
  else
    match segment (length cs) cs 0 with
    | Segmented ts => Some ts
    | Unsegmentable => unknown_token c
    | OutOfFuel => None
    end.

Fixpoint tokenize_chunks (chunks : list Chunk) : option (list Token) :=
  match chunks with
  | [] => Some []
  | c :: rest =>
      ts ← tokenize c default_maxInputCharsPerWord;
      more ← tokenize_chunks rest;
      Some (ts ++ more)
  end.

End Model.

(** Modelled from the spec: section 4.3 once more, as a relation that follows
    its wording step by step; the functions above are compared with it in
    [WordPieceFacts]. *)
Section Greedy.

Variable vocab : Vocabulary.

(** Step 2a: the string looked up for the characters from [cursor] up to
    [stop]: the substring itself at the start of the chunk, the substring
    behind the continuation marker elsewhere. *)
Definition lookup_string (cs : list NormalizedChar) (cursor stop : nat) : text :=
  match cursor with
  | O => map nc_char (take stop cs)
  | S _ => continuation_marker ++ map nc_char (take (stop - cursor) (drop cursor cs))
  end.

(** Step 2b: the token emitted for a match, spanning from the start of its
    first character to the end of its last. *)
Definition piece_token (cs : list NormalizedChar) (cursor stop id : nat) : Token :=
  {| tok_id := id;
     tok_text := lookup_string cs cursor stop;
     tok_continuation := match cursor with O => false | S _ => true end;
     tok_start := from_option nc_start 0 (cs !! cursor);
     tok_end := from_option nc_end 0 (cs !! (stop - 1)) |}.

(** [stop] ends the longest substring starting at [cursor] that is in the
    vocabulary, with id [id]. *)
Definition longest_at (cs : list NormalizedChar) (cursor stop id : nat) : Prop :=
  cursor < stop <= length cs
  ∧ vocab !! lookup_string cs cursor stop = Some id
  ∧ forall longer, stop < longer <= length cs ->
                   vocab !! lookup_string cs cursor longer = None.

(** Step 2: from [cursor], the chunk is cut into the tokens [ts], each the
    longest match at its cursor, up to the end of the chunk. *)
Inductive greedy (cs : list NormalizedChar) : nat -> list Token -> Prop :=
| greedy_end (cursor : nat) :
    length cs <= cursor -> greedy cs cursor []
| greedy_piece (cursor stop id : nat) (ts : list Token) :
    longest_at cs cursor stop id ->
    greedy cs stop ts ->
    greedy cs cursor (piece_token cs cursor stop id :: ts).

(** Step 2c: from [cursor], the longest matches lead to a cursor inside the
    chunk at which no substring of any length matches. *)
Inductive stuck (cs : list NormalizedChar) : nat -> Prop :=
| stuck_here (cursor : nat) :
    cursor < length cs ->
    (forall stop, cursor < stop <= length cs ->
                  vocab !! lookup_string cs cursor stop = None) ->
    stuck cs cursor
| stuck_later (cursor stop id : nat) :
    longest_at cs cursor stop id ->
    stuck cs stop ->
    stuck cs cursor.

(** The single [[UNK]] token spanning the whole chunk. *)
Definition unknown_for (c : Chunk) (ts : list Token) : Prop :=
  exists id,
    vocab !! UNK = Some id
    ∧ ts = [{| tok_id := id; tok_text := UNK; tok_continuation := false;
               tok_start := chunk_start c; tok_end := chunk_end c |}].

(** Steps 1 to 2c for one chunk: [[UNK]] when it is longer than
    [maxInputCharsPerWord] or cannot be cut to its end, the greedy tokens
    otherwise. *)
Definition tokens_of_chunk (maxInputCharsPerWord : nat) (c : Chunk) (ts : list Token)
  : Prop :=
  (maxInputCharsPerWord < length (chunk_chars c) ∧ unknown_for c ts)
  ∨ (length (chunk_chars c) <= maxInputCharsPerWord
     ∧ (greedy (chunk_chars c) 0 ts
        ∨ (stuck (chunk_chars c) 0 ∧ unknown_for c ts))).

End Greedy.

(** Modelled from the spec: the Encoder (section 4.4) and the public API
    (section 6), absent from the source files. *)
Section Encoder.

Context `{Unicode}.
Variable vocab : Vocabulary.

Definition special_token (name : text) : option Token :=
  id ← vocab !! name;
  Some {| tok_id := id; tok_text := name; tok_continuation := false;
          tok_start := 0; tok_end := 0 |}.

Definition tokenize_text (t : text) (lowercase stripAccents : bool) : option (list Token) :=
  tokenize_chunks vocab (preTokenize (normalize t lowercase stripAccents)).

Definition assemble (first second : list Token) : Encoding :=
  let toks := first ++ second in
  {| enc_tokens := toks;
     enc_ids := map tok_id toks;
     enc_typeIds := repeat 0 (length first) ++ repeat 1 (length second);
     enc_attentionMask := map (fun _ => 1) toks;
     enc_offsets := map (fun t => (tok_start t, tok_end t)) toks |}.

(** Modelled from the spec: [encode(textA, textB)] of section 4.4. *)
Definition encode_with (textA : text) (textB : option text) (lowercase stripAccents : bool)
  : option Encoding :=
  cls ← special_token CLS;
  sep ← special_token SEP;
  a ← tokenize_text textA lowercase stripAccents;
  b ← match textB with
      | None => Some []
      | Some t => tb ← tokenize_text t lowercase stripAccents; Some (tb ++ [sep])
      end;
  Some (assemble (cls :: a ++ [sep]) b).

Definition encode (t : text) (lowercase stripAccents : bool) : option Encoding :=
  encode_with t None lowercase stripAccents.

Definition encodePair (textA textB : text) (lowercase stripAccents : bool) : option Encoding :=
  encode_with textA (Some textB) lowercase stripAccents.

(** Modelled from the spec: section 4.4 as a relation.  The tokens of a text
    are those of its chunks, chunk after chunk. *)
Definition tokens_of_text (t : text) (lowercase stripAccents : bool) (ts : list Token)
  : Prop :=
  exists per_chunk,
    Forall2 (tokens_of_chunk vocab default_maxInputCharsPerWord)
            (preTokenize (normalize t lowercase stripAccents)) per_chunk
    ∧ ts = concat per_chunk.

(** [[CLS]] or [[SEP]] as it stands in an Encoding. *)
Definition special_for (name : text) (t : Token) : Prop :=
  exists id,
    vocab !! name = Some id
    ∧ t = {| tok_id := id; tok_text := name; tok_continuation := false;
             tok_start := 0; tok_end := 0 |}.

(** The Encoding of section 4.4 for [textA] and, when present, [textB]. *)
Definition encoding_of (textA : text) (textB : option text)
  (lowercase stripAccents : bool) (e : Encoding) : Prop :=
  exists cls sep a b,
    special_for CLS cls ∧ special_for SEP sep
    ∧ tokens_of_text textA lowercase stripAccents a
    ∧ match textB with
      | None => b = []
      | Some t => exists tb, tokens_of_text t lowercase stripAccents tb ∧ b = tb ++ [sep]
      end
    ∧ enc_tokens e = cls :: a ++ [sep] ++ b
    ∧ enc_ids e = map tok_id (enc_tokens e)
    ∧ enc_typeIds e = repeat 0 (length a + 2) ++ repeat 1 (length b)
    ∧ enc_attentionMask e = repeat 1 (length (enc_tokens e))
    ∧ enc_offsets e = map (fun t => (tok_start t, tok_end t)) (enc_tokens e).

End Encoder.

End WordPiece.

(** ** A concrete library and concrete worlds

    The script is run below against the tokenizer of [WordPiece] loaded with a
    small vocabulary, over a character database that knows Basic Latin and the
    combining diacritics. *)
Module Sample.

Definition in_range (lo hi c : N) : bool := ((lo <=? c) && (c <=? hi))%N.

#[export] Instance basic_latin : WordPiece.Unicode := {|
  WordPiece.fold_case c := if in_range 65 90 c then [(c + 32)%N] else [c];
  WordPiece.decompose c :=
    if (c =? 233)%N then [101%N; 769%N]
    else if (c =? 239)%N then [105%N; 776%N]
    else [c];
  WordPiece.is_combining_mark c := in_range 768 879 c;
  WordPiece.is_control c := (c <? 32)%N || (c =? 127)%N;
  WordPiece.is_whitespace c := (c =? 32)%N || (c =? 9)%N || (c =? 10)%N || (c =? 13)%N;
  WordPiece.is_punctuation c :=
    in_range 33 47 c || in_range 58 64 c || in_range 91 96 c || in_range 123 126 c;
  WordPiece.is_cjk c := in_range 19968 40959 c
|}.

Definition vocab_lines : list (list N) :=
  map WordPiece.of_ascii
    ["[PAD]"; "[UNK]"; "[CLS]"; "[SEP]"; "[MASK]"; "hello"; "world"; ","; "!"; ".";
     "un"; "##able"; "unable"; "token"; "##ization"; "a"; "##a"; "cafe"; "test"]%string.

Definition vocab : gmap (list N) nat :=
  match WordPiece.load_vocabulary (Some vocab_lines) with
  | inl v => v
  | inr _ => ∅
  end.

(** UTF-8, to pass between the script's strings and code points. *)
Fixpoint decode_utf8 (bytes : list N) : list N :=
  match bytes with
  | [] => []
  | b0 :: rest =>
      if (b0 <? 128)%N then b0 :: decode_utf8 rest
      else
        match rest with
        | b1 :: rest1 =>
            if (b0 <? 224)%N
            then ((b0 - 192) * 64 + (b1 - 128))%N :: decode_utf8 rest1
            else
              match rest1 with
              | b2 :: rest2 =>
                  if (b0 <? 240)%N
                  then ((b0 - 224) * 4096 + (b1 - 128) * 64 + (b2 - 128))%N
                       :: decode_utf8 rest2
                  else
                    match rest2 with
                    | b3 :: rest3 =>
                        ((b0 - 240) * 262144 + (b1 - 128) * 4096
                         + (b2 - 128) * 64 + (b3 - 128))%N :: decode_utf8 rest3
                    | [] => [65533%N]
                    end
              | [] => [65533%N]
              end
        | [] => [65533%N]
        end
  end.

Definition encode_utf8_char (c : N) : list N :=
  if (c <? 128)%N then [c]
  else if (c <? 2048)%N then [(192 + c / 64)%N; (128 + c mod 64)%N]
  else if (c <? 65536)%N
  then [(224 + c / 4096)%N; (128 + (c / 64) mod 64)%N; (128 + c mod 64)%N]
  else [(240 + c / 262144)%N; (128 + (c / 4096) mod 64)%N;
        (128 + (c / 64) mod 64)%N; (128 + c mod 64)%N].

Definition text_of_string (s : string) : list N :=
  decode_utf8 (map N_of_ascii (list_ascii_of_string s)).

Definition string_of_text (t : list N) : string :=
  string_of_list_ascii (map ascii_of_N (flat_map encode_utf8_char t)).

Record Handle := {
  tk_vocab : gmap (list N) nat;
  tk_lowercase : bool;
  tk_strip_accents : bool
}.

(** Whatever path is given, the vocabulary file holds [vocab_lines]. *)
Definition BertWordPieceTokenizer (path : string) (lowercase strip_accents : bool)
  : Handle :=
  {| tk_vocab := vocab; tk_lowercase := lowercase; tk_strip_accents := strip_accents |}.

Definition export (e : WordPiece.Encoding) : Script.Encoding :=
  {| Script.tokens := map string_of_text (WordPiece.surface_forms e);
     Script.ids := map N.of_nat (WordPiece.enc_ids e);
     Script.type_ids := map N.of_nat (WordPiece.enc_typeIds e);
     Script.attention_mask := map N.of_nat (WordPiece.enc_attentionMask e);
     Script.offsets :=
       map (fun o => (N.of_nat (fst o), N.of_nat (snd o))) (WordPiece.enc_offsets e) |}.

Definition no_encoding : Script.Encoding :=
  {| Script.tokens := []; Script.ids := []; Script.type_ids := [];
     Script.attention_mask := []; Script.offsets := [] |}.

Definition encode (t : Handle) (text : string) (pair : option string) : Script.Encoding :=
  match WordPiece.encode_with (tk_vocab t) (text_of_string text)
          (option_map text_of_string pair) (tk_lowercase t) (tk_strip_accents t) with
  | Some e => export e
  | None => no_encoding
  end.

(** The chunk the pre-tokenizer makes of the word "unable". *)
Definition unable_chunk : WordPiece.Chunk :=
  WordPiece.mk_chunk WordPiece.Word
    (WordPiece.normalize (WordPiece.of_ascii "unable") true true).

(** The chunks of two more words: one that splits into pieces, one whose
    second piece is missing. *)
Definition tokenization_chunk : WordPiece.Chunk :=
  WordPiece.mk_chunk WordPiece.Word
    (WordPiece.normalize (WordPiece.of_ascii "tokenization") true true).

Definition unzz_chunk : WordPiece.Chunk :=
  WordPiece.mk_chunk WordPiece.Word
    (WordPiece.normalize (WordPiece.of_ascii "unzz") true true).

(** Results written by hand: one record per list, with a key no declaration
    reads. *)
Definition hand_results : Py.value :=
  Py.Dict
    [("single_encoding",
      Py.List [Py.Dict [("name", Py.Str "s"); ("input", Py.Str "a b");
                        ("tokens", Py.List [Py.Str "a"; Py.Str "b"]);
                        ("ids", Py.List [Py.Int 7; Py.Int 8]);
                        ("type_ids", Py.List [Py.Int 0; Py.Int 0]);
                        ("attention_mask", Py.List [Py.Int 1; Py.Int 1]);
                        ("note", Py.Str "unused")]]);
     ("pair_encoding",
      Py.List [Py.Dict [("name", Py.Str "p"); ("input_a", Py.Str "a");
                        ("input_b", Py.Str "b"); ("tokens", Py.List []);
                        ("ids", Py.List []); ("type_ids", Py.List [])]]);
     ("edge_cases",
      Py.List [Py.Dict [("name", Py.Str "e"); ("input", Py.Str EmptyString);
                        ("tokens", Py.List []); ("ids", Py.List [])]]);
     ("offset_tests",
      Py.List [Py.Dict [("name", Py.Str "o"); ("input", Py.Str "a b");
                        ("offsets", Py.List [Py.Tuple [Py.Int 0; Py.Int 1];
                                             Py.Tuple [Py.Int 2; Py.Int 3]])]])]%string.

(** A record as the offset loop of [main] builds it: no [type_ids]. *)
Definition offset_shaped : Py.value :=
  Py.Dict [("name", Py.Str "o"); ("input", Py.Str "a");
           ("tokens", Py.List [Py.Str "a"]); ("ids", Py.List [Py.Int 7]);
           ("offsets", Py.List [Py.Tuple [Py.Int 0; Py.Int 1]])]%string.

Definition good_single : Py.value :=
  Py.Dict [("name", Py.Str "s"); ("input", Py.Str "a");
           ("tokens", Py.List [Py.Str "a"]); ("ids", Py.List [Py.Int 7]);
           ("type_ids", Py.List [Py.Int 0]);
           ("attention_mask", Py.List [Py.Int 1])]%string.

(** Well-formed results whose one name holds a raw newline. *)
Definition two_line_results : Py.value :=
  Py.Dict
    [("single_encoding",
      Py.List [Py.Dict [("name", Py.Str ("x" +:+ nl +:+ "  Injected("));
                        ("input", Py.Str "a");
                        ("tokens", Py.List [Py.Str "a"]); ("ids", Py.List [Py.Int 7]);
                        ("type_ids", Py.List [Py.Int 0]);
                        ("attention_mask", Py.List [Py.Int 1])]]);
     ("pair_encoding", Py.List []);
     ("edge_cases", Py.List []);
     ("offset_tests", Py.List [])]%string.

Definition mixed_items : list (string * Py.value) :=
  [("single_encoding", Py.List [good_single; offset_shaped; good_single])]%string.

(** [repr] of a string without quotes or escapes in it. *)
Definition repr_str (s : string) : string := "'" +:+ s +:+ "'".

(** Everything in place. *)
Definition ready : Script.World :=
  {| Script.tokenizers_importable := true;
     Script.existing_files := {["vocab.txt"%string]} |}.

(** The package is installed, the vocabulary file is not there. *)
Definition no_vocab : Script.World :=
  {| Script.tokenizers_importable := true; Script.existing_files := ∅ |}.

(** The vocabulary file is there, the package cannot be imported. *)
Definition no_package : Script.World :=
  {| Script.tokenizers_importable := false;
     Script.existing_files := {["vocab.txt"%string]} |}.

#[export] Instance library : Script.Library := {|
  Script.Tokenizer := Handle;
  Script.BertWordPieceTokenizer := BertWordPieceTokenizer;
  Script.encode := encode;
  Script.repr_str := repr_str
|}.

Definition run (w : Script.World) : Script.M unit := Script.script w.

(** Nothing raises. *)
Definition no_faults : Fallible.Faults :=
  {| Fallible.import_raises := None; Fallible.call_raises := fun _ _ => None |}.

(** [vocab.txt] exists and is not a vocabulary (a directory, say): the
    constructor raises. *)
Definition bad_vocab : Fallible.Faults :=
  {| Fallible.import_raises := None;
     Fallible.call_raises := fun _ e =>
       match e with
       | Script.EvNewTokenizer _ _ _ _ => Some (Py.Other "Exception")
       | _ => None
       end |}.

(** The output file cannot be written. *)
Definition read_only_directory : Fallible.Faults :=
  {| Fallible.import_raises := None;
     Fallible.call_raises := fun _ e =>
       match e with
       | Script.EvDump _ _ => Some (Py.Other "PermissionError")
       | _ => None
       end |}.

(** The standard output is closed after four lines. *)
Definition closed_stdout : Fallible.Faults :=
  {| Fallible.import_raises := None;
     Fallible.call_raises := fun h e =>
       match e with
       | Script.EvPrint _ =>
           if (4 <=? length (Script.printed h))%nat then Some (Py.Other "BrokenPipeError")
           else None
       | _ => None
       end |}.

(** The document a run wrote, when it wrote exactly one. *)
Definition written (m : Script.M unit) : Py.json :=
  match Script.dumps (Script.trace_of m) with
  | [(_, doc)] => doc
  | _ => Py.JArray []
  end.

End Sample.


(** * Facts about the script *)
Module ScriptFacts.
Import Py Script.

Section Facts.

Context `{Library}.

(** *** Sequencing and loops *)

Lemma bind_normal {A B : Type} (m : M A) (f : A -> M B) a t b t' :
  m = (Normal a, t) -> f a = (Normal b, t') -> bind m f = (Normal b, t ++ t').
Proof. intros -> Hf. unfold Script.bind. now rewrite Hf. Qed.

Lemma for_each_append {A : Type} (mk : list value -> value) (rec : A -> value)
  (ev : A -> list event) (body : A -> value -> M value) :
  (forall x acc, body x (mk acc) = (Normal (mk (acc ++ [rec x])), ev x)) ->
  forall l acc, for_each l (mk acc) body = (Normal (mk (acc ++ map rec l)), flat_map ev l).
Proof.
  intros Hbody l. induction l as [|x l IH]; intros acc; cbn [Script.for_each map flat_map].
  - now rewrite app_nil_r.
  - rewrite (bind_normal _ _ _ _ _ _ (Hbody x acc) (IH _)).
    now rewrite <- app_assoc.
Qed.

Lemma for_each_unit {A : Type} (rec : A -> value) (ev : A -> list event)
  (body : value -> unit -> M unit) :
  (forall x, body (rec x) tt = (Normal tt, ev x)) ->
  forall l, for_each (map rec l) tt body = (Normal tt, flat_map ev l).
Proof.
  intros Hbody l. induction l as [|x l IH]; cbn [Script.for_each map flat_map].
  - reflexivity.
  - now rewrite (bind_normal _ _ _ _ _ _ (Hbody x) IH).
Qed.

(** *** One iteration of each loop *)

Lemma single_body_run tk x acc b c d :
  single_body tk x (results_of acc b c d)
  = (Normal (results_of (acc ++ [single_record tk x]) b c d), single_events tk x).
Proof. destruct x as [name text]. reflexivity. Qed.

Lemma pair_body_run tk x a acc c d :
  pair_body tk x (results_of a acc c d)
  = (Normal (results_of a (acc ++ [pair_record tk x]) c d), pair_events tk x).
Proof. destruct x as [[name text_a] text_b]. reflexivity. Qed.

Lemma edge_body_run tk x a b acc d :
  edge_body tk x (results_of a b acc d)
  = (Normal (results_of a b (acc ++ [single_record tk x]) d), single_events tk x).
Proof. destruct x as [name text]. reflexivity. Qed.

Lemma offset_body_run tk x a b c acc :
  offset_body tk x (results_of a b c acc)
  = (Normal (results_of a b c (acc ++ [offset_record tk x])), offset_events tk x).
Proof. destruct x as [name text]. reflexivity. Qed.

Lemma dart_single_run tk x :
  dart_single (single_record tk x) tt = (Normal tt, dart_single_events tk x).
Proof. destruct x as [name text]. reflexivity. Qed.

Lemma dart_pair_run tk x :
  dart_pair (pair_record tk x) tt = (Normal tt, dart_pair_events tk x).
Proof. destruct x as [[name text_a] text_b]. reflexivity. Qed.

Lemma dart_edge_run tk x :
  dart_edge (single_record tk x) tt = (Normal tt, dart_edge_events tk x).
Proof. destruct x as [name text]. reflexivity. Qed.

Lemma comprehension_spans (l : list (N * N)) :
  comprehension dart_span
    (map (fun o => Tuple [Int (fst o); Int (snd o)]) l)
  = (Normal (map span_text l), []).
Proof.
  induction l as [|o l IH]; cbn [Script.comprehension map].
  - reflexivity.
  - eapply (bind_normal _ _ (span_text o) [] _ []); [reflexivity|].
    eapply (bind_normal _ _ _ [] _ []); [exact IH|reflexivity].
Qed.

Lemma dart_offset_run tk x :
  dart_offset (offset_record tk x) tt = (Normal tt, dart_offset_events tk x).
Proof.
  destruct x as [name text]. unfold Script.dart_offset.
  eapply (bind_normal _ _ _ [] _ _); [reflexivity|]. cbn beta.
  eapply (bind_normal _ _ _ [] _ _); [reflexivity|]. cbn beta.
  eapply (bind_normal _ _ _ [] _ _); [apply comprehension_spans|].
  reflexivity.
Qed.

(** *** The loops as a whole *)

Lemma single_loop tk l a b c d :
  for_each l (results_of a b c d) (single_body tk)
  = (Normal (results_of (a ++ map (single_record tk) l) b c d),
     flat_map (single_events tk) l).
Proof.
  apply (for_each_append (fun acc => results_of acc b c d)).
  intros x acc. apply single_body_run.
Qed.

Lemma pair_loop tk l a b c d :
  for_each l (results_of a b c d) (pair_body tk)
  = (Normal (results_of a (b ++ map (pair_record tk) l) c d),
     flat_map (pair_events tk) l).
Proof.
  apply (for_each_append (fun acc => results_of a acc c d)).
  intros x acc. apply pair_body_run.
Qed.

Lemma edge_loop tk l a b c d :
  for_each l (results_of a b c d) (edge_body tk)
  = (Normal (results_of a b (c ++ map (single_record tk) l) d),
     flat_map (single_events tk) l).
Proof.
  apply (for_each_append (fun acc => results_of a b acc d)).
  intros x acc. apply edge_body_run.
Qed.

Lemma offset_loop tk l a b c d :
  for_each l (results_of a b c d) (offset_body tk)
  = (Normal (results_of a b c (d ++ map (offset_record tk) l)),
     flat_map (offset_events tk) l).
Proof.
  apply (for_each_append (fun acc => results_of a b c acc)).
  intros x acc. apply offset_body_run.
Qed.

Lemma dart_single_loop tk l :
  for_each (map (single_record tk) l) tt dart_single
  = (Normal tt, flat_map (dart_single_events tk) l).
Proof. apply for_each_unit. apply dart_single_run. Qed.

Lemma dart_pair_loop tk l :
  for_each (map (pair_record tk) l) tt dart_pair
  = (Normal tt, flat_map (dart_pair_events tk) l).
Proof. apply for_each_unit. apply dart_pair_run. Qed.

Lemma dart_edge_loop tk l :
  for_each (map (single_record tk) l) tt dart_edge
  = (Normal tt, flat_map (dart_edge_events tk) l).
Proof. apply for_each_unit. apply dart_edge_run. Qed.

Lemma dart_offset_loop tk l :
  for_each (map (offset_record tk) l) tt dart_offset
  = (Normal tt, flat_map (dart_offset_events tk) l).
Proof. apply for_each_unit. apply dart_offset_run. Qed.

(** *** A complete run *)

Ltac run_step := cbn beta; eapply bind_normal; [ reflexivity | ].
Ltac run_loop lem := cbn beta; eapply bind_normal; [ apply lem | ].

Lemma generate_dart_code_run tk :
  _generate_dart_code (final_results tk) = (Normal tt, dart_trace tk).
Proof.
  unfold Script._generate_dart_code.
  etransitivity.
  - do 2 run_step.
    do 2 run_step. run_loop dart_single_loop.
    do 4 run_step.
    do 2 run_step. run_loop dart_pair_loop.
    do 4 run_step.
    do 2 run_step. run_loop dart_edge_loop.
    do 4 run_step.
    do 2 run_step. run_loop dart_offset_loop.
    reflexivity.
  - reflexivity.
Qed.

Lemma main_ready w :
  "vocab.txt"%string ∈ existing_files w -> main w = (Normal tt, success_trace).
Proof.
  intros Hin. unfold Script.main, Script.path_exists.
  rewrite (bool_decide_eq_true_2 _ Hin).
  etransitivity.
  - do 4 run_step.
    run_step. run_loop single_loop.
    run_step. run_loop pair_loop.
    run_step. run_loop edge_loop.
    run_step. run_loop offset_loop.
    do 4 run_step.
    cbn beta. apply generate_dart_code_run.
  - reflexivity.
Qed.

Lemma main_missing w :
  "vocab.txt"%string ∉ existing_files w -> main w = (SysExit 1, missing_vocab_trace).
Proof.
  intros Hout. unfold Script.main, Script.path_exists.
  now rewrite (bool_decide_eq_false_2 _ Hout).
Qed.

Lemma script_run w :
  script w = if tokenizers_importable w then main w
             else (SysExit 1, import_failure_trace).
Proof.
  unfold Script.script, Script.import_guard.
  destruct (tokenizers_importable w); [|reflexivity].
  unfold Script.bind, Script.ret. destruct (main w) as [r t]. reflexivity.
Qed.

(** *** Lists built by [map] *)

Lemma Forall2_map_right {A B : Type} (P : A -> B -> Prop) (f : A -> B) (l : list A) :
  (forall x, P x (f x)) -> Forall2 P l (map f l).
Proof. intros HP. induction l as [|x l IH]; cbn; constructor; auto. Qed.

Lemma Forall_map_intro {A B : Type} (P : B -> Prop) (f : A -> B) (l : list A) :
  (forall x, P (f x)) -> Forall P (map f l).
Proof. intros HP. induction l as [|x l IH]; cbn; constructor; auto. Qed.

(** *** The dumped records *)

Lemma carries_single tk name text :
  carries (encode tk text None) (to_json (single_result name text (encode tk text None))).
Proof. repeat split; cbn; now rewrite map_map. Qed.

Lemma carries_offset tk name text :
  carries (encode tk text None) (to_json (offset_result name text (encode tk text None))).
Proof. repeat split; cbn; now rewrite map_map. Qed.

Lemma carries_pair tk name text_a text_b :
  carries (encode tk text_a (Some text_b))
          (to_json (pair_result name text_a text_b (encode tk text_a (Some text_b)))).
Proof. repeat split; cbn; now rewrite map_map. Qed.

Lemma single_record_matches tk case : single_matches tk case (to_json (single_record tk case)).
Proof.
  destruct case as [name text]. unfold single_matches, single_record.
  split; [reflexivity|]. split; [reflexivity|]. apply carries_single.
Qed.

Lemma offset_record_matches tk case : single_matches tk case (to_json (offset_record tk case)).
Proof.
  destruct case as [name text]. unfold single_matches, offset_record.
  split; [reflexivity|]. split; [reflexivity|]. apply carries_offset.
Qed.

Lemma pair_record_matches tk case : pair_matches tk case (to_json (pair_record tk case)).
Proof.
  destruct case as [[name text_a] text_b]. unfold pair_matches, pair_record.
  split; [reflexivity|]. split; [reflexivity|]. split; [reflexivity|]. apply carries_pair.
Qed.

Lemma records_of_final_results tk :
  records_under "single_encoding" (to_json (final_results tk))
    = map to_json (map (single_record tk) SINGLE_ENCODING_TESTS)
  ∧ records_under "pair_encoding" (to_json (final_results tk))
    = map to_json (map (pair_record tk) PAIR_ENCODING_TESTS)
  ∧ records_under "edge_cases" (to_json (final_results tk))
    = map to_json (map (single_record tk) EDGE_CASE_TESTS)
  ∧ records_under "offset_tests" (to_json (final_results tk))
    = map to_json (map (offset_record tk) OFFSET_TESTS).
Proof. repeat split. Qed.

(** *** What the trace of a complete run holds *)

Lemma dumps_success :
  dumps success_trace = [(output_path, to_json (final_results the_tokenizer))].
Proof. vm_compute. reflexivity. Qed.

Lemma constructions_success :
  constructions success_trace = [("vocab.txt"%string, true, true, the_tokenizer)].
Proof. vm_compute. reflexivity. Qed.

Lemma encode_calls_success :
  encode_calls success_trace
  = map (fun c => (the_tokenizer, snd c, None)) SINGLE_ENCODING_TESTS
    ++ map (fun c => (the_tokenizer, snd (fst c), Some (snd c))) PAIR_ENCODING_TESTS
    ++ map (fun c => (the_tokenizer, snd c, None)) EDGE_CASE_TESTS
    ++ map (fun c => (the_tokenizer, snd c, None)) OFFSET_TESTS.
Proof. vm_compute. reflexivity. Qed.

Lemma declarations_success : declarations (printed success_trace) = dart_declarations.
Proof. vm_compute. reflexivity. Qed.

Lemma declared_names_success :
  declared_names (printed success_trace)
  = map fst SINGLE_ENCODING_TESTS ++ map (fun c => fst (fst c)) PAIR_ENCODING_TESTS
    ++ map fst EDGE_CASE_TESTS ++ map fst OFFSET_TESTS.
Proof. vm_compute. reflexivity. Qed.

Lemma ready_true w :
  tokenizers_importable w = true -> "vocab.txt"%string ∈ existing_files w -> ready w = true.
Proof. intros Himp Hin. unfold ready. now rewrite Himp, (bool_decide_eq_true_2 _ Hin). Qed.

Lemma script_ready w : ready w = true -> script w = (Normal tt, success_trace).
Proof.
  unfold ready. intros [Himp Hin%bool_decide_eq_true_1]%andb_prop.
  rewrite script_run, Himp. now apply main_ready.
Qed.

Lemma script_not_ready w :
  ready w = false ->
  script w = (SysExit 1, if tokenizers_importable w then missing_vocab_trace
                         else import_failure_trace).
Proof.
  unfold ready. rewrite script_run. destruct (tokenizers_importable w); cbn.
  - intros Hout%bool_decide_eq_false_1. now apply main_missing.
  - reflexivity.
Qed.

(** ** The claims about the script *)

(** C1 (as amended).  When the import works and [vocab.txt] exists, the run
    writes one document.  Its single-encoding and edge-case records have
    exactly the fields name, input, tokens, ids, type_ids, attention_mask,
    offsets; its pair records have input_a and input_b in place of input; its
    offset-test records have only name, input, tokens, ids, offsets.  The Dart
    declarations carry name, input, expectedTokens, expectedIds,
    expectedTypeIds, expectedAttentionMask (single), name, inputA, inputB,
    expectedTokens, expectedIds, expectedTypeIds (pair), name, input,
    expectedTokens, expectedIds (edge case) and name, input, expectedOffsets
    (offset test). *)
Theorem serialized_fields_by_catalog (w : World) :
  tokenizers_importable w = true ->
  "vocab.txt"%string ∈ existing_files w ->
  has_documented_fields (trace_of (script w)).
Proof.
  intros Himp Hin. rewrite (script_ready w (ready_true w Himp Hin)).
  unfold trace_of, snd, has_documented_fields.
  exists (to_json (final_results the_tokenizer)).
  destruct (records_of_final_results the_tokenizer) as (-> & -> & -> & ->).
  split; [apply dumps_success|].
  rewrite !map_map.
  split; [apply Forall_map_intro; now intros [name text]|].
  split; [apply Forall_map_intro; now intros [[name text_a] text_b]|].
  split; [apply Forall_map_intro; now intros [name text]|].
  split; [apply Forall_map_intro; now intros [name text]|].
  apply declarations_success.
Qed.

(** C2.  If [vocab.txt] does not exist, the run ends with exit status 1 and
    has built no tokenizer, made no encode call and written no file. *)
Theorem missing_vocabulary_stops_the_run (w : World) :
  "vocab.txt"%string ∉ existing_files w ->
  result_of (script w) = SysExit 1
  ∧ constructions (trace_of (script w)) = []
  ∧ encode_calls (trace_of (script w)) = []
  ∧ dumps (trace_of (script w)) = [].
Proof.
  intros Hout.
  assert (Hnot : ready w = false).
  { unfold ready. rewrite (bool_decide_eq_false_2 _ Hout). apply andb_false_r. }
  rewrite (script_not_ready w Hnot).
  destruct (tokenizers_importable w); cbn; auto.
Qed.

(** C4.  When the run completes, each of the four arrays of the document
    holds one record per catalog entry, in catalog order: the i-th record has
    the i-th entry's name and input(s) and the encoding of that input.  The
    Dart declarations name the entries in the same order. *)
Theorem records_follow_catalog_order (w : World) :
  tokenizers_importable w = true ->
  "vocab.txt"%string ∈ existing_files w ->
  follows_catalogs the_tokenizer (trace_of (script w)).
Proof.
  intros Himp Hin. rewrite (script_ready w (ready_true w Himp Hin)).
  unfold trace_of, snd, follows_catalogs.
  exists (to_json (final_results the_tokenizer)).
  destruct (records_of_final_results the_tokenizer) as (-> & -> & -> & ->).
  split; [apply dumps_success|].
  rewrite !map_map.
  split; [apply Forall2_map_right, single_record_matches|].
  split; [apply Forall2_map_right, pair_record_matches|].
  split; [apply Forall2_map_right, single_record_matches|].
  split; [apply Forall2_map_right, offset_record_matches|].
  apply declared_names_success.
Qed.

(** C10.  A run builds at most one tokenizer, with [lowercase=True] and
    [strip_accents=True]; every encode call goes to that instance; a complete
    run makes 84 of them, and every record of the document it writes is the
    encoding that instance returned. *)
Theorem one_tokenizer_serves_every_call (w : World) :
  constructions (trace_of (script w))
  = (if ready w then [("vocab.txt"%string, true, true, the_tokenizer)] else [])
  ∧ Forall (fun c => fst (fst c) = the_tokenizer) (encode_calls (trace_of (script w)))
  ∧ length (encode_calls (trace_of (script w))) = (if ready w then 84 else 0)
  ∧ dumps (trace_of (script w))
    = (if ready w then [(output_path, to_json (final_results the_tokenizer))] else []).
Proof.
  destruct (ready w) eqn:Hr.
  - rewrite (script_ready w Hr). unfold trace_of, snd.
    split; [apply constructions_success|].
    rewrite encode_calls_success.
    split.
    + repeat (apply Forall_app; split); apply Forall_map_intro; reflexivity.
    + split; [reflexivity|apply dumps_success].
  - rewrite (script_not_ready w Hr).
    destruct (tokenizers_importable w); cbn; auto.
Qed.

End Facts.

(** *** The theorems at concrete worlds *)

Lemma serialized_fields_by_catalog_witness :
  tokenizers_importable Sample.ready = true
  ∧ "vocab.txt"%string ∈ existing_files Sample.ready
  ∧ has_documented_fields (trace_of (Sample.run Sample.ready)).
Proof.
  assert (Hin : "vocab.txt"%string ∈ existing_files Sample.ready)
    by (unfold Sample.ready; cbn [existing_files]; set_solver).
  split; [reflexivity|]. split; [exact Hin|].
  exact (serialized_fields_by_catalog Sample.ready eq_refl Hin).
Defined.

(** C1 (as the spec words it) fails: in the document written by the sample
    run, the records of the offset tests have neither [type_ids] nor
    [attention_mask], the pair records have no [input], and the Dart
    declaration of the first single-encoding case has no offsets field. *)
Lemma offset_and_pair_records_lack_listed_fields :
  every_record_has_all_listed (Sample.written (Sample.run Sample.ready)) = false
  ∧ map member_names (records_under "offset_tests" (Sample.written (Sample.run Sample.ready)))
    = [offset_fields; offset_fields; offset_fields]
  ∧ map (member "input") (records_under "pair_encoding" (Sample.written (Sample.run Sample.ready)))
    = [None; None; None]
  ∧ nth_error (declarations (printed (trace_of (Sample.run Sample.ready)))) 0
    = Some ("SingleEncodingTestCase"%string,
            ["name"; "input"; "expectedTokens"; "expectedIds"; "expectedTypeIds";
             "expectedAttentionMask"]%string).
Proof. vm_compute. repeat split. Qed.

Lemma missing_vocabulary_stops_the_run_witness :
("vocab.txt"%string ∉ existing_files Sample.no_vocab)
  ∧ result_of (Sample.run Sample.no_vocab) = SysExit 1
  ∧ constructions (trace_of (Sample.run Sample.no_vocab)) = []
  ∧ encode_calls (trace_of (Sample.run Sample.no_vocab)) = []
  ∧ dumps (trace_of (Sample.run Sample.no_vocab)) = [].
Proof.
  assert (Hout : "vocab.txt"%string ∉ existing_files Sample.no_vocab)
    by (unfold Sample.no_vocab; cbn [existing_files]; set_solver).
  split; [exact Hout|].
  exact (missing_vocabulary_stops_the_run Sample.no_vocab Hout).
Defined.

Lemma records_follow_catalog_order_witness :
  tokenizers_importable Sample.ready = true
  ∧ "vocab.txt"%string ∈ existing_files Sample.ready
  ∧ follows_catalogs the_tokenizer (trace_of (Sample.run Sample.ready)).
Proof.
  assert (Hin : "vocab.txt"%string ∈ existing_files Sample.ready)
    by (unfold Sample.ready; cbn [existing_files]; set_solver).
  split; [reflexivity|]. split; [exact Hin|].
  exact (records_follow_catalog_order Sample.ready eq_refl Hin).
Defined.

End ScriptFacts.


(** * Facts about the script when calls can raise *)
Module FallibleFacts.
Import Py Script.

Section Facts.

Context `{Library}.

Variable f : Fallible.Faults.

(** *** Interrupting a trace *)

Lemma first_fault_app h t t' :
  Fallible.first_fault f h (t ++ t')
  = match Fallible.first_fault f h t with
    | Some p => Some p
    | None =>
        match Fallible.first_fault f (h ++ t) t' with
        | Some (done, x) => Some (t ++ done, x)
        | None => None
        end
    end.
Proof.
  revert h. induction t as [|e t IH]; intros h; cbn [app Fallible.first_fault].
  - rewrite app_nil_r. now destruct (Fallible.first_fault f h t') as [[d x]|].
  - destruct (Fallible.call_raises f h e); [reflexivity|].
    rewrite IH. destruct (Fallible.first_fault f (h ++ [e]) t) as [[d x]|]; [reflexivity|].
    rewrite <- app_assoc. cbn [app].
    now destruct (Fallible.first_fault f (h ++ e :: t) t') as [[d x]|].
Qed.

Lemma cut_bind {A B : Type} (m : M A) (k : A -> M B) h :
  Fallible.cut f h (Script.bind m k)
  = Fallible.bind (fun h' => Fallible.cut f h' m) (fun a h' => Fallible.cut f h' (k a)) h.
Proof.
  destruct m as [[a|c|e] t]; unfold Fallible.bind, Fallible.cut, Script.bind, trace_of;
    cbn [snd].
  - destruct (k a) as [r t'] eqn:Hk. cbn [snd]. rewrite first_fault_app.
    destruct (Fallible.first_fault f h t) as [[d x]|]; [reflexivity|].
    rewrite Hk. cbn [snd].
    now destruct (Fallible.first_fault f (h ++ t) t') as [[d x]|].
  - now destruct (Fallible.first_fault f h t) as [[d x]|].
  - now destruct (Fallible.first_fault f h t) as [[d x]|].
Qed.

Lemma cut_silent {A : Type} (m : M A) h : trace_of m = [] -> Fallible.cut f h m = m.
Proof. unfold Fallible.cut. now intros ->. Qed.

(** *** Each construct of the program follows its fault-free reading *)

Lemma follows_bind {A B : Type} (m' : Fallible.FM A) (m : M A)
  (k' : A -> Fallible.FM B) (k : A -> M B) :
  Fallible.follows f m' m ->
  (forall a, Fallible.follows f (k' a) (k a)) ->
  Fallible.follows f (Fallible.bind m' k') (Script.bind m k).
Proof.
  intros Hm Hk h. rewrite cut_bind. unfold Fallible.bind. rewrite (Hm h).
  destruct (Fallible.cut f h m) as [[a|c|e] t]; [|reflexivity..].
  now rewrite (Hk a (h ++ t)).
Qed.

Lemma follows_ret {A : Type} (a : A) : Fallible.follows f (Fallible.ret a) (Script.ret a).
Proof. intros h. reflexivity. Qed.

Lemma follows_own {A : Type} (m : M A) :
  trace_of m = [] -> Fallible.follows f (Fallible.own m) m.
Proof. intros Hm h. now rewrite (cut_silent m h Hm). Qed.

Lemma follows_call {A : Type} (e : event) (a : A) :
  Fallible.follows f (Fallible.call f e a) (Normal a, [e]).
Proof.
  intros h. unfold Fallible.call, Fallible.cut, trace_of. cbn [snd Fallible.first_fault].
  now destruct (Fallible.call_raises f h e).
Qed.

Lemma follows_for_each {A S : Type} (body' : A -> S -> Fallible.FM S) (body : A -> S -> M S) :
  (forall x s, Fallible.follows f (body' x s) (body x s)) ->
  forall l s, Fallible.follows f (Fallible.for_each l s body') (Script.for_each l s body).
Proof.
  intros Hbody l. induction l as [|x l IH]; intros s;
    cbn [Fallible.for_each Script.for_each].
  - apply follows_ret.
  - apply follows_bind; [apply Hbody|]. intros s'. apply IH.
Qed.

(** *** The script's own operations make no call *)

Lemma bind_silent {A B : Type} (m : M A) (k : A -> M B) :
  trace_of m = [] -> (forall a, trace_of (k a) = []) -> trace_of (Script.bind m k) = [].
Proof.
  destruct m as [[a|c|e] t]; unfold trace_of, Script.bind; cbn [snd]; intros -> Hk;
    [|reflexivity..].
  specialize (Hk a). destruct (k a) as [r t']. exact Hk.
Qed.

Lemma getitem_silent v key : trace_of (Script.getitem v key) = [].
Proof. destruct v; cbn; try reflexivity. now destruct (assoc key items). Qed.

Lemma getindex_silent v i : trace_of (Script.getindex v i) = [].
Proof. destruct v; cbn; try reflexivity; now destruct (nth_error _ i). Qed.

Lemma iter_silent v : trace_of (Script.iter v) = [].
Proof. now destruct v. Qed.

Lemma append_at_silent d key x : trace_of (Script.append_at d key x) = [].
Proof.
  unfold Script.append_at. apply bind_silent; [apply getitem_silent|].
  intros l. destruct l; try reflexivity. now destruct d.
Qed.

Lemma dart_span_silent o : trace_of (dart_span o) = [].
Proof.
  unfold dart_span. apply bind_silent; [apply getindex_silent|]. intros a.
  apply bind_silent; [apply getindex_silent|]. reflexivity.
Qed.

Lemma comprehension_silent os : trace_of (comprehension dart_span os) = [].
Proof.
  induction os as [|o os IH]; cbn [comprehension]; [reflexivity|].
  apply bind_silent; [apply dart_span_silent|]. intros y.
  apply bind_silent; [exact IH|]. reflexivity.
Qed.

(** *** The program, piece by piece *)

Ltac follow :=
  repeat first
    [ apply follows_bind; [|intros ?]
    | apply follows_call
    | apply follows_ret
    | apply follows_own;
      first [ apply getitem_silent | apply iter_silent | apply append_at_silent
            | apply comprehension_silent | reflexivity ] ].

Lemma single_body_follows tk case results :
  Fallible.follows f (Fallible.single_body f tk case results) (single_body tk case results).
Proof. destruct case as [name text]. unfold Fallible.single_body, single_body. follow. Qed.

Lemma pair_body_follows tk case results :
  Fallible.follows f (Fallible.pair_body f tk case results) (pair_body tk case results).
Proof.
  destruct case as [[name text_a] text_b]. unfold Fallible.pair_body, pair_body. follow.
Qed.

Lemma edge_body_follows tk case results :
  Fallible.follows f (Fallible.edge_body f tk case results) (edge_body tk case results).
Proof. destruct case as [name text]. unfold Fallible.edge_body, edge_body. follow. Qed.

Lemma offset_body_follows tk case results :
  Fallible.follows f (Fallible.offset_body f tk case results) (offset_body tk case results).
Proof. destruct case as [name text]. unfold Fallible.offset_body, offset_body. follow. Qed.

Lemma dart_single_follows r u :
  Fallible.follows f (Fallible.dart_single f r u) (dart_single r u).
Proof. unfold Fallible.dart_single, dart_single. follow. Qed.

Lemma dart_pair_follows r u :
  Fallible.follows f (Fallible.dart_pair f r u) (dart_pair r u).
Proof. unfold Fallible.dart_pair, dart_pair. follow. Qed.

Lemma dart_edge_follows r u :
  Fallible.follows f (Fallible.dart_edge f r u) (dart_edge r u).
Proof. unfold Fallible.dart_edge, dart_edge. follow. Qed.

Lemma dart_offset_follows r u :
  Fallible.follows f (Fallible.dart_offset f r u) (dart_offset r u).
Proof. unfold Fallible.dart_offset, dart_offset. follow. Qed.

Lemma generate_dart_code_follows results :
  Fallible.follows f (Fallible._generate_dart_code f results) (_generate_dart_code results).
Proof.
  unfold Fallible._generate_dart_code, _generate_dart_code.
  repeat first
    [ apply follows_for_each;
      first [ apply dart_single_follows | apply dart_pair_follows
            | apply dart_edge_follows | apply dart_offset_follows ]
    | apply follows_bind; [|intros ?]
    | apply follows_call
    | apply follows_own; first [ apply getitem_silent | apply iter_silent ] ].
Qed.

Lemma main_follows w : Fallible.follows f (Fallible.main f w) (main w).
Proof.
  unfold Fallible.main, main.
  apply follows_bind; [apply follows_call|]. intros found.
  apply follows_bind.
  { destruct found; cbn [negb]; [apply follows_ret|].
    apply follows_bind; [apply follows_call|]. intros _.
    apply follows_own. reflexivity. }
  intros _.
  repeat first
    [ apply generate_dart_code_follows
    | apply follows_for_each;
      first [ apply single_body_follows | apply pair_body_follows
            | apply edge_body_follows | apply offset_body_follows ]
    | apply follows_bind; [|intros ?]
    | apply follows_call ].
Qed.

(** With an import that raises nothing but an ImportError, the whole script
    does what its fault-free reading does until a call raises. *)
Lemma script_follows w :
  Fallible.import_raises f = None ->
  Fallible.follows f (Fallible.script f w) (script w).
Proof.
  intros Himp. unfold Fallible.script, script.
  apply follows_bind; [|intros _; apply main_follows].
  unfold Fallible.import_guard, import_guard. rewrite Himp.
  destruct (tokenizers_importable w); [apply follows_ret|].
  apply follows_bind; [apply follows_call|]. intros _.
  apply follows_bind; [apply follows_call|]. intros _.
  apply follows_own. reflexivity.
Qed.

Lemma script_planned w : script w = Fallible.planned w.
Proof.
  unfold Fallible.planned. destruct (ready w) eqn:Hr.
  - now apply ScriptFacts.script_ready.
  - rewrite (ScriptFacts.script_not_ready w Hr). now destruct (tokenizers_importable w).
Qed.

Lemma run_ending w : Fallible.run f w = Fallible.ending f w.
Proof.
  unfold Fallible.run, Fallible.ending.
  destruct (Fallible.import_raises f) as [e|] eqn:Himp.
  - unfold Fallible.script, Fallible.import_guard, Fallible.bind. now rewrite Himp.
  - rewrite (script_follows w Himp []). now rewrite script_planned.
Qed.

(** An interrupted trace is the events before the call that raised. *)
Lemma first_fault_some h t done x :
  Fallible.first_fault f h t = Some (done, x) ->
  exists c rest, t = done ++ c :: rest ∧ Fallible.call_raises f (h ++ done) c = Some x.
Proof.
  revert h done. induction t as [|e t IH]; intros h done; cbn [Fallible.first_fault].
  - discriminate.
  - destruct (Fallible.call_raises f h e) as [y|] eqn:He.
    + intros [= <- <-]. exists e, t. rewrite app_nil_r. now split.
    + destruct (Fallible.first_fault f (h ++ [e]) t) as [[d y]|] eqn:Ht; [|discriminate].
      intros [= <- <-]. destruct (IH _ _ Ht) as (c & rest & -> & Hc).
      exists c, rest. split; [reflexivity|]. now rewrite <- app_assoc in Hc.
Qed.

Lemma planned_result w :
  result_of (Fallible.planned w) = if ready w then Normal tt else SysExit 1.
Proof.
  unfold Fallible.planned.
  destruct (ready w); [reflexivity|]. now destruct (tokenizers_importable w).
Qed.

Lemma planned_trace w :
  trace_of (Fallible.planned w)
  = if ready w then success_trace
    else if tokenizers_importable w then missing_vocab_trace else import_failure_trace.
Proof.
  unfold Fallible.planned.
  destruct (ready w); [reflexivity|]. now destruct (tokenizers_importable w).
Qed.

(** ** The claim about failure handling *)


End Facts.

#[local] Existing Instance Sample.library.

Lemma sample_planned : Fallible.planned Sample.ready = (Normal tt, success_trace).
Proof.
  rewrite <- script_planned. apply ScriptFacts.script_ready.
  apply ScriptFacts.ready_true; [reflexivity|].
  unfold Sample.ready; cbn [existing_files]; set_solver.
Qed.



End FallibleFacts.

(** * Facts about the tokenizer *)
Module WordPieceFacts.
Import WordPiece.

Section Matching.

Variable vocab : gmap (list N) nat.

Lemma sub_chars_whole (cs : list NormalizedChar) : sub_chars cs 0 (0 + length cs) = cs.
Proof. unfold sub_chars. cbn. rewrite Nat.sub_0_r. apply firstn_all. Qed.

Lemma candidate_whole (cs : list NormalizedChar) :
  candidate cs 0 (0 + length cs) = map nc_char cs.
Proof. unfold candidate. now rewrite sub_chars_whole. Qed.

(** The scan returns the largest end whose candidate is in the vocabulary. *)
Lemma longest_match_some cs cursor n stop id :
  longest_match vocab cs cursor n = Some (stop, id) ->
  cursor < stop <= cursor + n
  ∧ vocab !! candidate cs cursor stop = Some id
  ∧ forall stop', stop < stop' <= cursor + n -> vocab !! candidate cs cursor stop' = None.
Proof.
  induction n as [|n IH]; cbn [longest_match]; [discriminate|].
  destruct (vocab !! candidate cs cursor (cursor + S n)) as [id'|] eqn:Hlook.
  - intros [= <- <-]. split; [lia|]. split; [exact Hlook|]. intros stop' Hs. lia.
  - intros Hm. destruct (IH Hm) as (Hb & Hid & Hmax).
    split; [lia|]. split; [exact Hid|].
    intros stop' Hs. destruct (decide (stop' = cursor + S n)) as [->|Hne]; [exact Hlook|].
    apply Hmax. lia.
Qed.

Lemma longest_match_none cs cursor n :
  longest_match vocab cs cursor n = None <->
  forall stop, cursor < stop <= cursor + n -> vocab !! candidate cs cursor stop = None.
Proof.
  induction n as [|n IH]; cbn [longest_match].
  - split; [intros _ stop Hs; lia|reflexivity].
  - destruct (vocab !! candidate cs cursor (cursor + S n)) as [id'|] eqn:Hlook.
    + split; [discriminate|]. intros Hall.
      rewrite (Hall (cursor + S n)) in Hlook by lia. discriminate.
    + rewrite IH. split; intros Hall stop Hs.
      * destruct (decide (stop = cursor + S n)) as [->|Hne]; [exact Hlook|].
        apply Hall. lia.
      * apply Hall. lia.
Qed.

(** The chunk length is enough fuel: every iteration moves the cursor. *)
Lemma segment_has_fuel cs :
  forall fuel cursor, length cs - cursor <= fuel -> segment vocab fuel cs cursor <> OutOfFuel.
Proof.
  induction fuel as [|fuel IH]; intros cursor Hfuel; cbn [segment].
  - destruct (Nat.leb_spec (length cs) cursor); [discriminate|lia].
  - destruct (Nat.leb_spec (length cs) cursor); [discriminate|].
    destruct (longest_match vocab cs cursor (length cs - cursor)) as [[stop id]|] eqn:Hm;
      [|discriminate].
    apply longest_match_some in Hm as (Hb & _ & _).
    specialize (IH stop ltac:(lia)).
    destruct (segment vocab fuel cs stop); congruence.
Qed.

Lemma unknown_token_some (c : Chunk) id :
  vocab !! UNK = Some id ->
  unknown_token vocab c
  = Some [{| tok_id := id; tok_text := UNK; tok_continuation := false;
             tok_start := chunk_start c; tok_end := chunk_end c |}].
Proof. intros Hunk. unfold unknown_token. now rewrite Hunk. Qed.

Lemma tokenize_total (c : Chunk) (maxInputCharsPerWord : nat) :
  is_Some (vocab !! UNK) -> is_Some (tokenize vocab c maxInputCharsPerWord).
Proof.
  intros [id Hunk]. unfold tokenize.
  destruct (maxInputCharsPerWord <? length (chunk_chars c))%nat.
  - rewrite (unknown_token_some c id Hunk). eauto.
  - pose proof (segment_has_fuel (chunk_chars c) (length (chunk_chars c)) 0 ltac:(lia)) as Hf.
    destruct (segment vocab (length (chunk_chars c)) (chunk_chars c) 0); [eauto| |congruence].
    rewrite (unknown_token_some c id Hunk). eauto.
Qed.

Lemma tokenize_chunks_total (chunks : list Chunk) :
  is_Some (vocab !! UNK) -> is_Some (tokenize_chunks vocab chunks).
Proof.
  intros Hunk. induction chunks as [|c chunks [more IH]]; cbn [tokenize_chunks]; [eauto|].
  destruct (tokenize_total c default_maxInputCharsPerWord Hunk) as [ts Hts].
  rewrite Hts, IH. cbn. eauto.
Qed.

Lemma segment_done cs fuel cursor :
  length cs <= cursor -> segment vocab fuel cs cursor = Segmented [].
Proof.
  intros Hdone. destruct fuel; cbn [segment];
    destruct (Nat.leb_spec (length cs) cursor); (reflexivity || lia).
Qed.

Lemma longest_match_whole cs id :
  cs <> [] ->
  vocab !! map nc_char cs = Some id ->
  longest_match vocab cs 0 (length cs) = Some (0 + length cs, id).
Proof.
  intros Hne Hlook. destruct (length cs) as [|n] eqn:Hn.
  - destruct cs; [congruence|discriminate].
  - cbn [longest_match]. rewrite <- Hn, candidate_whole, Hlook. reflexivity.
Qed.

(** A chunk that is itself a vocabulary entry becomes that one token. *)
Lemma tokenize_whole_word (c : Chunk) (maxInputCharsPerWord id : nat) :
  chunk_chars c <> [] ->
  length (chunk_chars c) <= maxInputCharsPerWord ->
  vocab !! map nc_char (chunk_chars c) = Some id ->
  tokenize vocab c maxInputCharsPerWord
  = Some [{| tok_id := id; tok_text := map nc_char (chunk_chars c);
             tok_continuation := false;
             tok_start := span_start (chunk_chars c);
             tok_end := span_end (chunk_chars c) |}].
Proof.
  intros Hne Hlen Hlook. unfold tokenize.
  destruct (Nat.ltb_spec maxInputCharsPerWord (length (chunk_chars c))); [lia|].
  set (cs := chunk_chars c) in *.
  destruct (length cs) as [|fuel] eqn:Hn.
  - destruct cs; [congruence|discriminate].
  - cbn [segment].
    destruct (Nat.leb_spec (length cs) 0); [lia|].
    rewrite Nat.sub_0_r, (longest_match_whole cs id Hne Hlook).
    rewrite segment_done by lia.
    now rewrite candidate_whole, sub_chars_whole.
Qed.

(** A chunk none of whose prefixes is in the vocabulary becomes [[UNK]]. *)
Lemma tokenize_no_prefix (c : Chunk) (maxInputCharsPerWord id : nat) :
  chunk_chars c <> [] ->
  vocab !! UNK = Some id ->
  (forall stop, 0 < stop <= length (chunk_chars c) ->
                vocab !! candidate (chunk_chars c) 0 stop = None) ->
  tokenize vocab c maxInputCharsPerWord = unknown_token vocab c.
Proof.
  intros Hne Hunk Hnone. unfold tokenize.
  destruct (maxInputCharsPerWord <? length (chunk_chars c))%nat; [reflexivity|].
  set (cs := chunk_chars c) in *.
  destruct (length cs) as [|fuel] eqn:Hn.
  - destruct cs; [congruence|discriminate].
  - cbn [segment]. rewrite Hn. cbn [Nat.leb]. rewrite Nat.sub_0_r.
    assert (Hm : longest_match vocab cs 0 (S fuel) = None).
    { apply longest_match_none. intros stop Hs. apply Hnone. lia. }
    now rewrite Hm.
Qed.

Lemma tokenize_oversized (c : Chunk) (maxInputCharsPerWord : nat) :
  maxInputCharsPerWord < length (chunk_chars c) ->
  tokenize vocab c maxInputCharsPerWord = unknown_token vocab c.
Proof.
  intros Hlong. unfold tokenize.
  destruct (Nat.ltb_spec maxInputCharsPerWord (length (chunk_chars c))); [reflexivity|lia].
Qed.

(** *** The loop and the relation of section 4.3 *)

Lemma lookup_string_candidate cs cursor stop :
  lookup_string cs cursor stop = candidate cs cursor stop.
Proof.
  unfold lookup_string, candidate, sub_chars. destruct cursor as [|k]; cbn [Nat.eqb].
  - now rewrite Nat.sub_0_r, drop_0.
  - reflexivity.
Qed.

Lemma span_start_sub cs cursor stop :
  cursor < stop <= length cs ->
  span_start (sub_chars cs cursor stop) = from_option nc_start 0 (cs !! cursor).
Proof.
  intros Hb. unfold sub_chars.
  pose proof (lookup_drop cs cursor 0) as Hd. rewrite Nat.add_0_r in Hd. rewrite <- Hd.
  pose proof (length_drop cs cursor) as Hl.
  destruct (drop cursor cs) as [|x rest]; cbn [length] in Hl; [lia|].
  destruct (stop - cursor) as [|k] eqn:Hk; [lia|]. reflexivity.
Qed.

Lemma span_end_sub cs cursor stop :
  cursor < stop <= length cs ->
  span_end (sub_chars cs cursor stop) = from_option nc_end 0 (cs !! (stop - 1)).
Proof.
  intros Hb. unfold span_end, sub_chars.
  rewrite last_lookup, length_take_le by (rewrite length_drop; lia).
  rewrite lookup_take_lt by lia. rewrite lookup_drop.
  replace (cursor + pred (stop - cursor)) with (stop - 1) by lia.
  now destruct (cs !! (stop - 1)).
Qed.

Lemma longest_match_exact cs cursor n stop id :
  cursor < stop <= cursor + n ->
  vocab !! lookup_string cs cursor stop = Some id ->
  (forall longer, stop < longer <= cursor + n ->
                  vocab !! lookup_string cs cursor longer = None) ->
  longest_match vocab cs cursor n = Some (stop, id).
Proof.
  intros Hb Hid Hmax.
  destruct (longest_match vocab cs cursor n) as [[stop' id']|] eqn:Hm.
  - apply longest_match_some in Hm as (Hb' & Hid' & Hmax').
    rewrite <- lookup_string_candidate in Hid'.
    destruct (Nat.lt_trichotomy stop stop') as [Hlt|[->|Hgt]].
    + rewrite (Hmax stop') in Hid' by lia. discriminate.
    + congruence.
    + specialize (Hmax' stop ltac:(lia)).
      rewrite <- lookup_string_candidate in Hmax'. congruence.
  - rewrite longest_match_none in Hm. specialize (Hm stop Hb).
    rewrite <- lookup_string_candidate in Hm. congruence.
Qed.

Lemma longest_match_longest_at cs cursor stop id :
  cursor < length cs ->
  longest_match vocab cs cursor (length cs - cursor) = Some (stop, id) ->
  longest_at vocab cs cursor stop id.
Proof.
  intros Hin Hm. apply longest_match_some in Hm as (Hb & Hid & Hmax).
  split; [lia|]. rewrite lookup_string_candidate. split; [exact Hid|].
  intros longer Hl. rewrite lookup_string_candidate. apply Hmax. lia.
Qed.

Lemma segment_step cs fuel cursor stop id :
  longest_at vocab cs cursor stop id ->
  segment vocab (S fuel) cs cursor
  = match segment vocab fuel cs stop with
    | Segmented ts => Segmented (piece_token cs cursor stop id :: ts)
    | other => other
    end.
Proof.
  intros (Hb & Hid & Hmax). cbn [segment].
  destruct (Nat.leb_spec (length cs) cursor); [lia|].
  rewrite (longest_match_exact cs cursor (length cs - cursor) stop id);
    [|lia|exact Hid|intros longer Hl; apply Hmax; lia].
  unfold piece_token.
  rewrite lookup_string_candidate, span_start_sub, span_end_sub by lia.
  now destruct cursor.
Qed.

Lemma segment_greedy cs cursor ts :
  greedy vocab cs cursor ts ->
  forall fuel, length cs - cursor <= fuel -> segment vocab fuel cs cursor = Segmented ts.
Proof.
  induction 1 as [cursor Hend|cursor stop id ts Hl Hg IH]; intros fuel Hfuel.
  - now apply segment_done.
  - pose proof Hl as (Hb & _ & _).
    destruct fuel as [|fuel]; [lia|].
    rewrite (segment_step cs fuel cursor stop id Hl), IH by lia. reflexivity.
Qed.

Lemma segment_stuck cs cursor :
  stuck vocab cs cursor ->
  forall fuel, length cs - cursor <= fuel -> segment vocab fuel cs cursor = Unsegmentable.
Proof.
  induction 1 as [cursor Hin Hnone|cursor stop id Hl Hs IH]; intros fuel Hfuel.
  - destruct fuel as [|fuel]; [lia|]. cbn [segment].
    destruct (Nat.leb_spec (length cs) cursor); [lia|].
    assert (Hm : longest_match vocab cs cursor (length cs - cursor) = None).
    { apply longest_match_none. intros stop Hs.
      rewrite <- lookup_string_candidate. apply Hnone. lia. }
    now rewrite Hm.
  - pose proof Hl as (Hb & _ & _).
    destruct fuel as [|fuel]; [lia|].
    rewrite (segment_step cs fuel cursor stop id Hl), IH by lia. reflexivity.
Qed.

(** Every chunk is either cut to its end or gets stuck. *)
Lemma greedy_or_stuck cs :
  forall fuel cursor, length cs - cursor <= fuel ->
    (exists ts, greedy vocab cs cursor ts) ∨ stuck vocab cs cursor.
Proof.
  induction fuel as [|fuel IH]; intros cursor Hfuel.
  - left. exists []. apply greedy_end. lia.
  - destruct (Nat.le_gt_cases (length cs) cursor) as [Hend|Hin].
    { left. exists []. now apply greedy_end. }
    destruct (longest_match vocab cs cursor (length cs - cursor)) as [[stop id]|] eqn:Hm.
    + apply longest_match_longest_at in Hm; [|exact Hin].
      pose proof Hm as (Hb & _ & _).
      destruct (IH stop ltac:(lia)) as [[ts Hts]|Hstuck].
      * left. eexists. eapply greedy_piece; eauto.
      * right. eapply stuck_later; eauto.
    + right. apply stuck_here; [exact Hin|].
      rewrite longest_match_none in Hm. intros stop Hs.
      rewrite lookup_string_candidate. apply Hm. lia.
Qed.

(** [tokenize] does what section 4.3 says, for every chunk. *)
Lemma tokenize_spec (c : Chunk) (maxInputCharsPerWord : nat) :
  is_Some (vocab !! UNK) ->
  exists ts,
    tokenize vocab c maxInputCharsPerWord = Some ts
    ∧ tokens_of_chunk vocab maxInputCharsPerWord c ts.
Proof.
  intros [u Hu].
  assert (Hunk : unknown_for vocab c
                   [{| tok_id := u; tok_text := UNK; tok_continuation := false;
                       tok_start := chunk_start c; tok_end := chunk_end c |}])
    by (exists u; auto).
  unfold tokenize, tokens_of_chunk.
  destruct (Nat.ltb_spec maxInputCharsPerWord (length (chunk_chars c))) as [Hlong|Hshort].
  - rewrite (unknown_token_some c u Hu). eauto 6.
  - destruct (greedy_or_stuck (chunk_chars c) (length (chunk_chars c)) 0 ltac:(lia))
      as [[ts Hts]|Hstuck].
    + rewrite (segment_greedy _ _ _ Hts) by lia. eauto 6.
    + rewrite (segment_stuck _ _ Hstuck) by lia.
      rewrite (unknown_token_some c u Hu). eauto 8.
Qed.

Lemma tokenize_chunks_spec (chunks : list Chunk) :
  is_Some (vocab !! UNK) ->
  exists per_chunk,
    tokenize_chunks vocab chunks = Some (concat per_chunk)
    ∧ Forall2 (tokens_of_chunk vocab default_maxInputCharsPerWord) chunks per_chunk.
Proof.
  intros Hunk. induction chunks as [|c chunks (rest & Hrest & Hall)]; cbn [tokenize_chunks].
  - exists []. split; [reflexivity|constructor].
  - destruct (tokenize_spec c default_maxInputCharsPerWord Hunk) as (ts & Hts & Hspec).
    exists (ts :: rest). rewrite Hts, Hrest. cbn. split; [reflexivity|now constructor].
Qed.

End Matching.

Section Encoding.

Context `{Unicode}.
Variable vocab : gmap (list N) nat.

Lemma assemble_lengths (first second : list Token) :
  length (enc_tokens (assemble first second)) = length (enc_ids (assemble first second))
  ∧ length (enc_ids (assemble first second)) = length (enc_typeIds (assemble first second))
  ∧ length (enc_typeIds (assemble first second))
    = length (enc_attentionMask (assemble first second))
  ∧ length (enc_attentionMask (assemble first second))
    = length (enc_offsets (assemble first second)).
Proof.
  unfold assemble; cbn.
  rewrite !length_map, !length_app, !repeat_length. auto.
Qed.

Lemma tokenize_text_total (t : list N) (lowercase stripAccents : bool) :
  is_Some (vocab !! UNK) -> is_Some (tokenize_text vocab t lowercase stripAccents).
Proof. intros Hunk. unfold tokenize_text. now apply tokenize_chunks_total. Qed.

Lemma encode_with_assembles textA textB lowercase stripAccents :
  has_reserved vocab ->
  exists first second,
    encode_with vocab textA textB lowercase stripAccents = Some (assemble first second).
Proof.
  intros ([i Hcls] & [j Hsep] & Hunk).
  unfold encode_with, special_token. rewrite Hcls, Hsep. cbn.
  destruct (tokenize_text_total textA lowercase stripAccents Hunk) as [a Ha].
  rewrite Ha. cbn.
  destruct textB as [t|]; cbn.
  - destruct (tokenize_text_total t lowercase stripAccents Hunk) as [b Hb].
    rewrite Hb. cbn. eauto.
  - eauto.
Qed.

(** *** A text that is one plain word *)

Lemma normalize_plain (t : list N) (lowercase stripAccents : bool) :
  Forall (plain lowercase stripAccents) t ->
  forall i, normalize_from i t lowercase stripAccents = at_positions i t.
Proof.
  induction 1 as [|c t (Hc & _) Ht IH]; intros i; cbn [normalize_from at_positions].
  - reflexivity.
  - rewrite Hc, IH. reflexivity.
Qed.

Lemma split_plain (t : list N) (lowercase stripAccents : bool) :
  Forall (plain lowercase stripAccents) t ->
  forall i cur, split_chunks cur (at_positions i t) = flush (cur ++ at_positions i t).
Proof.
  induction 1 as [|c t (_ & Hs & Hp & Hj) Ht IH]; intros i cur;
    cbn [split_chunks at_positions nc_char].
  - now rewrite app_nil_r.
  - rewrite Hs, Hp, Hj, IH, <- app_assoc. reflexivity.
Qed.

Lemma at_positions_length (t : list N) (i : nat) : length (at_positions i t) = length t.
Proof. revert i. induction t as [|c t IH]; intros i; cbn; [reflexivity|now rewrite IH]. Qed.

Lemma at_positions_span_end (t : list N) (i : nat) :
  t <> [] -> span_end (at_positions i t) = i + length t.
Proof.
  revert i. induction t as [|c t IH]; intros i Hne; [congruence|].
  destruct t as [|d t].
  - cbn. lia.
  - specialize (IH (S i) ltac:(discriminate)).
    unfold span_end in *. cbn [at_positions length] in *.
    change (last (?x :: ?y :: ?l)) with (last (y :: l)).
    rewrite IH. lia.
Qed.

Lemma plain_word_chunk (t : list N) (lowercase stripAccents : bool) :
  t <> [] ->
  Forall (plain lowercase stripAccents) t ->
  preTokenize (normalize t lowercase stripAccents) = [mk_chunk Word (at_positions 0 t)].
Proof.
  intros Hne Hplain. unfold preTokenize, normalize.
  rewrite (normalize_plain t _ _ Hplain), (split_plain t _ _ Hplain). cbn [app].
  destruct t; [congruence|reflexivity].
Qed.

(** An unknown or oversized word, alone in the text, is encoded as [[CLS]],
    one [[UNK]] spanning the word, [[SEP]]. *)
Lemma encode_unknown_word (t : list N) (lowercase stripAccents : bool) :
  has_reserved vocab ->
  t <> [] ->
  Forall (plain lowercase stripAccents) t ->
  default_maxInputCharsPerWord < length t ∨ stuck vocab (at_positions 0 t) 0 ->
  spans <$> (enc_tokens <$> encode vocab t lowercase stripAccents)
  = Some [(CLS, (0, 0)); (UNK, (0, length t)); (SEP, (0, 0))].
Proof.
  intros ([i Hcls] & [j Hsep] & [u Hunk]) Hne Hplain Hcase.
  unfold encode, encode_with, special_token, tokenize_text.
  rewrite Hcls, Hsep, (plain_word_chunk t _ _ Hne Hplain). cbn [mbind option_bind].
  cbn [tokenize_chunks].
  assert (Htok : tokenize vocab (mk_chunk Word (at_positions 0 t))
                   default_maxInputCharsPerWord
                 = unknown_token vocab (mk_chunk Word (at_positions 0 t))).
  { destruct Hcase as [Hlong|Hstuck].
    - apply tokenize_oversized. cbn. now rewrite at_positions_length.
    - unfold tokenize. cbn [chunk_chars mk_chunk].
      destruct (_ <? _)%nat; [reflexivity|].
      now rewrite (segment_stuck vocab _ _ Hstuck) by lia. }
  rewrite Htok, (unknown_token_some vocab _ u Hunk). cbn.
  rewrite (at_positions_span_end t 0 Hne).
  destruct t as [|c t]; [congruence|]. reflexivity.
Qed.

Lemma map_const_repeat {A : Type} (l : list A) (n : nat) :
  map (fun _ => n) l = repeat n (length l).
Proof. induction l as [|x l IH]; cbn; [reflexivity|now rewrite IH]. Qed.

Lemma special_token_for (name : list N) (id : nat) :
  vocab !! name = Some id ->
  exists t, special_token vocab name = Some t ∧ special_for vocab name t.
Proof.
  intros Hid. unfold special_token, special_for. rewrite Hid. cbn. eauto.
Qed.

Lemma tokenize_text_spec (t : list N) (lowercase stripAccents : bool) :
  is_Some (vocab !! UNK) ->
  exists ts,
    tokenize_text vocab t lowercase stripAccents = Some ts
    ∧ tokens_of_text vocab t lowercase stripAccents ts.
Proof.
  intros Hunk. unfold tokenize_text, tokens_of_text.
  destruct (tokenize_chunks_spec vocab (preTokenize (normalize t lowercase stripAccents)) Hunk)
    as (per_chunk & Hrun & Hall).
  eauto.
Qed.

(** [encode_with] returns the Encoding of section 4.4. *)
Lemma encode_with_spec textA textB lowercase stripAccents :
  has_reserved vocab ->
  exists e,
    encode_with vocab textA textB lowercase stripAccents = Some e
    ∧ encoding_of vocab textA textB lowercase stripAccents e.
Proof.
  intros ([i Hcls] & [j Hsep] & Hunk).
  destruct (special_token_for CLS i Hcls) as (cls & Hc & Hcs).
  destruct (special_token_for SEP j Hsep) as (sep & Hs & Hss).
  destruct (tokenize_text_spec textA lowercase stripAccents Hunk) as (a & Ha & Has).
  unfold encode_with. rewrite Hc, Hs, Ha. cbn.
  assert (Hshape : forall b,
            enc_tokens (assemble (cls :: a ++ [sep]) b) = cls :: a ++ [sep] ++ b
            ∧ enc_ids (assemble (cls :: a ++ [sep]) b)
              = map tok_id (enc_tokens (assemble (cls :: a ++ [sep]) b))
            ∧ enc_typeIds (assemble (cls :: a ++ [sep]) b)
              = repeat 0 (length a + 2) ++ repeat 1 (length b)
            ∧ enc_attentionMask (assemble (cls :: a ++ [sep]) b)
              = repeat 1 (length (enc_tokens (assemble (cls :: a ++ [sep]) b)))
            ∧ enc_offsets (assemble (cls :: a ++ [sep]) b)
              = map (fun t => (tok_start t, tok_end t))
                    (enc_tokens (assemble (cls :: a ++ [sep]) b))).
  { intros b. unfold assemble. cbn [enc_tokens enc_ids enc_typeIds enc_attentionMask
                                     enc_offsets].
    split; [cbn; now rewrite <- app_assoc|]. split; [reflexivity|].
    split; [cbn [length]; rewrite length_app; cbn [length];
            now replace (S (length a + 1)) with (length a + 2) by lia|].
    split; [apply map_const_repeat|reflexivity]. }
  destruct textB as [t|]; cbn.
  - destruct (tokenize_text_spec t lowercase stripAccents Hunk) as (tb & Hb & Hbs).
    rewrite Hb. cbn. eexists. split; [reflexivity|].
    exists cls, sep, a, (tb ++ [sep]).
    split; [exact Hcs|]. split; [exact Hss|]. split; [exact Has|].
    split; [eauto|]. apply Hshape.
  - eexists. split; [reflexivity|].
    exists cls, sep, a, []. split; [exact Hcs|]. split; [exact Hss|]. split; [exact Has|].
    split; [reflexivity|]. apply Hshape.
Qed.

(** A vocabulary that loads holds the reserved tokens. *)
Lemma loaded_has_reserved (lines : list (list N)) :
  load_vocabulary (Some lines) = inl vocab -> has_reserved vocab.
Proof.
  unfold load_vocabulary.
  destruct (load_lines 0 lines ∅) as [v|e]; [|discriminate].
  destruct (missing_reserved v) as [t|] eqn:Hmiss; [discriminate|].
  intros [= ->]. revert Hmiss.
  unfold missing_reserved, reserved_tokens, has_reserved. cbn [List.find].
  destruct (vocab !! PAD); [|discriminate].
  destruct (vocab !! UNK); [|discriminate].
  destruct (vocab !! CLS); [|discriminate].
  destruct (vocab !! SEP); [|discriminate].
  intros _. eauto.
Qed.

End Encoding.

Lemma sample_vocab_reserved : has_reserved Sample.vocab.
Proof.
  split; [exists 2; vm_compute; reflexivity|].
  split; [exists 3; vm_compute; reflexivity|].
  exists 1; vm_compute; reflexivity.
Qed.

(** ** The claims about the tokenizer *)

(** C6.  For every input, single or pair, [encode] returns an Encoding whose
    five parallel arrays have the same length. *)
Theorem encoding_arrays_have_equal_length `{Unicode} (vocab : gmap (list N) nat)
  (textA : list N) (textB : option (list N)) (lowercase stripAccents : bool) :
  has_reserved vocab ->
  exists e,
    encode_with vocab textA textB lowercase stripAccents = Some e
    ∧ length (enc_tokens e) = length (enc_ids e)
    ∧ length (enc_ids e) = length (enc_typeIds e)
    ∧ length (enc_typeIds e) = length (enc_attentionMask e)
    ∧ length (enc_attentionMask e) = length (enc_offsets e).
Proof.
  intros Hres.
  destruct (encode_with_assembles vocab textA textB lowercase stripAccents Hres)
    as (first & second & He).
  exists (assemble first second). split; [exact He|]. apply assemble_lengths.
Qed.

Lemma empty_string_encoding_holds `{Unicode} (vocab : gmap (list N) nat)
  (lowercase stripAccents : bool) :
  has_reserved vocab ->
  exists e,
    encode vocab [] lowercase stripAccents = Some e
    ∧ surface_forms e = [CLS; SEP]
    ∧ enc_offsets e = [(0, 0); (0, 0)].
Proof.
  intros ([i Hcls] & [j Hsep] & _).
  unfold encode, encode_with, special_token. rewrite Hcls, Hsep. cbn.
  eexists. split; [reflexivity|]. split; reflexivity.
Qed.

(** C7.  Encoding the empty string yields the tokens [[CLS]], [[SEP]] with
    offsets (0,0), (0,0). *)
Theorem empty_string_encoding `{Unicode} (vocab : gmap (list N) nat)
  (lowercase stripAccents : bool) :
  has_reserved vocab ->
  exists e,
    encode vocab [] lowercase stripAccents = Some e
    ∧ surface_forms e = [CLS; SEP]
    ∧ enc_offsets e = [(0, 0); (0, 0)].
Proof.
  intros Hres.
  destruct (empty_string_encoding_holds vocab lowercase stripAccents Hres)
    as (e & He & Htok & Hoff).
  exists e. auto.
Qed.

(** C8.  Segmentation is greedy longest-match-first.  With a vocabulary
    containing "un", "##able" and "unable", the chunk "unable" becomes the
    single token "unable".  In general, for a chunk within the length limit:
    when the chunk can be cut, cursor after cursor, into the longest
    vocabulary entry starting there (looked up behind "##" away from the
    chunk's start), [tokenize] returns exactly those tokens; when that
    cutting reaches a cursor where nothing matches, it returns the single
    [[UNK]]; and one of the two is always the case. *)
Theorem greedy_longest_match_first (vocab : gmap (list N) nat) (c : Chunk)
  (id_un id_able id_unable : nat) :
  vocab !! of_ascii "un" = Some id_un ->
  vocab !! of_ascii "##able" = Some id_able ->
  vocab !! of_ascii "unable" = Some id_unable ->
  map nc_char (chunk_chars c) = of_ascii "unable" ->
  map tok_text <$> tokenize vocab c default_maxInputCharsPerWord = Some [of_ascii "unable"]
  ∧ map tok_id <$> tokenize vocab c default_maxInputCharsPerWord = Some [id_unable]
  ∧ forall (c' : Chunk) (maxInputCharsPerWord : nat),
      length (chunk_chars c') <= maxInputCharsPerWord ->
      (forall ts, greedy vocab (chunk_chars c') 0 ts ->
                  tokenize vocab c' maxInputCharsPerWord = Some ts)
      ∧ (stuck vocab (chunk_chars c') 0 ->
         tokenize vocab c' maxInputCharsPerWord = unknown_token vocab c')
      ∧ ((exists ts, greedy vocab (chunk_chars c') 0 ts)
         ∨ stuck vocab (chunk_chars c') 0).
Proof.
  intros _ _ Hunable Hchars.
  assert (Hlen : length (chunk_chars c) = 6).
  { rewrite <- (length_map nc_char), Hchars. reflexivity. }
  assert (Hne : chunk_chars c <> []).
  { intros Hnil. rewrite Hnil in Hlen. discriminate. }
  rewrite (tokenize_whole_word vocab c default_maxInputCharsPerWord id_unable Hne).
  - cbn. rewrite Hchars. split; [reflexivity|]. split; [reflexivity|].
    intros c' m Hshort. unfold tokenize.
    destruct (Nat.ltb_spec m (length (chunk_chars c'))); [lia|].
    split; [|split].
    + intros ts Hts. now rewrite (segment_greedy vocab _ _ _ Hts) by lia.
    + intros Hstuck. now rewrite (segment_stuck vocab _ _ Hstuck) by lia.
    + apply (greedy_or_stuck vocab (chunk_chars c') (length (chunk_chars c')) 0). lia.
  - rewrite Hlen. unfold default_maxInputCharsPerWord. lia.
  - now rewrite Hchars.
Qed.

(** C9.  Once a vocabulary has loaded, [encode] and [encodePair] return an
    Encoding for every input, and it is the one section 4.4 describes:
    [[CLS]], the tokens of the first text, [[SEP]] and, for a pair, the
    tokens of the second text and [[SEP]], with ids, type ids, mask and
    offsets to match.  The tokens of a text are those of its chunks in
    order: a chunk longer than [maxInputCharsPerWord], or one whose greedy
    cutting gets stuck at any cursor, gives exactly one [[UNK]] spanning the
    chunk, any other chunk its greedy pieces.  The empty input gives
    [[CLS]], [[SEP]]; a text that is one word of plain characters, too long
    or impossible to cut, gives [[CLS]], [[UNK]] over the whole word,
    [[SEP]]. *)
Theorem encode_never_fails `{Unicode} (lines : list (list N)) (vocab : gmap (list N) nat) :
  load_vocabulary (Some lines) = inl vocab ->
  (forall textA textB lowercase stripAccents,
     exists e,
       encode_with vocab textA textB lowercase stripAccents = Some e
       ∧ encoding_of vocab textA textB lowercase stripAccents e)
  ∧ (forall lowercase stripAccents,
       surface_forms <$> encode vocab [] lowercase stripAccents = Some [CLS; SEP])
  ∧ (forall t lowercase stripAccents,
       t <> [] ->
       Forall (plain lowercase stripAccents) t ->
       default_maxInputCharsPerWord < length t ∨ stuck vocab (at_positions 0 t) 0 ->
       spans <$> (enc_tokens <$> encode vocab t lowercase stripAccents)
       = Some [(CLS, (0, 0)); (UNK, (0, length t)); (SEP, (0, 0))]).
Proof.
  intros Hload. pose proof (loaded_has_reserved vocab lines Hload) as Hres.
  split; [|split].
  - intros textA textB lc sa. now apply encode_with_spec.
  - intros lc sa.
    destruct (empty_string_encoding_holds vocab lc sa Hres) as (e & He & Htok & _).
    rewrite He. cbn. now rewrite Htok.
  - intros t lc sa. now apply encode_unknown_word.
Qed.

(** *** The theorems at a concrete vocabulary *)

#[local] Existing Instance Sample.basic_latin.

Lemma encoding_arrays_have_equal_length_witness :
  has_reserved Sample.vocab
  ∧ exists e,
      encode_with Sample.vocab (of_ascii "Hello, world!") (Some (of_ascii "unable"))
        true true = Some e
      ∧ length (enc_tokens e) = length (enc_ids e)
      ∧ length (enc_ids e) = length (enc_typeIds e)
      ∧ length (enc_typeIds e) = length (enc_attentionMask e)
      ∧ length (enc_attentionMask e) = length (enc_offsets e).
Proof.
  split; [exact sample_vocab_reserved|].
  exact (encoding_arrays_have_equal_length Sample.vocab (of_ascii "Hello, world!")
           (Some (of_ascii "unable")) true true sample_vocab_reserved).
Defined.

Lemma empty_string_encoding_witness :
  has_reserved Sample.vocab
  ∧ exists e,
      encode Sample.vocab [] true true = Some e
      ∧ surface_forms e = [CLS; SEP]
      ∧ enc_offsets e = [(0, 0); (0, 0)].
Proof.
  split; [exact sample_vocab_reserved|].
  exact (empty_string_encoding Sample.vocab true true sample_vocab_reserved).
Defined.

Lemma greedy_longest_match_first_witness :
  Sample.vocab !! of_ascii "un" = Some 10
  ∧ Sample.vocab !! of_ascii "##able" = Some 11
  ∧ Sample.vocab !! of_ascii "unable" = Some 12
  ∧ map nc_char (chunk_chars Sample.unable_chunk) = of_ascii "unable"
  ∧ map tok_text <$> tokenize Sample.vocab Sample.unable_chunk default_maxInputCharsPerWord
    = Some [of_ascii "unable"]
  ∧ map tok_id <$> tokenize Sample.vocab Sample.unable_chunk default_maxInputCharsPerWord
    = Some [12]
  ∧ ((exists ts, greedy Sample.vocab (chunk_chars Sample.tokenization_chunk) 0 ts)
     ∨ stuck Sample.vocab (chunk_chars Sample.tokenization_chunk) 0)
  ∧ map tok_text <$> tokenize Sample.vocab Sample.tokenization_chunk
                       default_maxInputCharsPerWord
    = Some [of_ascii "token"; of_ascii "##ization"]
  ∧ map tok_text <$> tokenize Sample.vocab Sample.unzz_chunk default_maxInputCharsPerWord
    = Some [UNK].
Proof.
  assert (Hun : Sample.vocab !! of_ascii "un" = Some 10) by (vm_compute; reflexivity).
  assert (Hable : Sample.vocab !! of_ascii "##able" = Some 11) by (vm_compute; reflexivity).
  assert (Hunable : Sample.vocab !! of_ascii "unable" = Some 12) by (vm_compute; reflexivity).
  assert (Hchars : map nc_char (chunk_chars Sample.unable_chunk) = of_ascii "unable")
    by (vm_compute; reflexivity).
  pose proof (greedy_longest_match_first Sample.vocab Sample.unable_chunk 10 11 12
                Hun Hable Hunable Hchars) as (Htext & Hid & Hgen).
  destruct (Hgen Sample.tokenization_chunk default_maxInputCharsPerWord
              ltac:(vm_compute; lia)) as (_ & _ & Hcase).
  do 6 (split; [assumption|]).
  split; [exact Hcase|]. split; vm_compute; reflexivity.
Defined.

Lemma sample_vocab_loads : load_vocabulary (Some Sample.vocab_lines) = inl Sample.vocab.
Proof. vm_compute. reflexivity. Qed.

Lemma encode_never_fails_witness :
  load_vocabulary (Some Sample.vocab_lines) = inl Sample.vocab
  ∧ (exists e,
       encode_with Sample.vocab (of_ascii "zzz unzz") (Some (of_ascii "Hello")) true true
       = Some e
       ∧ encoding_of Sample.vocab (of_ascii "zzz unzz") (Some (of_ascii "Hello")) true true e)
  ∧ surface_forms <$> encode Sample.vocab [] true true = Some [CLS; SEP]
  ∧ surface_forms <$> encode Sample.vocab (of_ascii "zzz unzz") true true
    = Some [CLS; UNK; UNK; SEP]
  ∧ surface_forms <$> encode Sample.vocab (of_ascii "Hello, tokenization!") true true
    = Some [CLS; of_ascii "hello"; of_ascii ","; of_ascii "token"; of_ascii "##ization";
            of_ascii "!"; SEP].
Proof.
  pose proof (encode_never_fails Sample.vocab_lines Sample.vocab sample_vocab_loads)
    as (Hall & Hempty & _).
  split; [exact sample_vocab_loads|].
  split; [apply Hall|]. split; [apply Hempty|].
  split; vm_compute; reflexivity.
Defined.

End WordPieceFacts.

(** * More facts about the script *)
Module ScriptExtras.
Import Py Script ScriptFacts.

Section Generator.

Context `{Library}.

(** *** Traces *)

Lemma printed_app (a b : list event) : printed (a ++ b) = printed a ++ printed b.
Proof. unfold printed. apply flat_map_app. Qed.

Lemma printed_prints (lines : list string) : printed (map EvPrint lines) = lines.
Proof. induction lines as [|l lines IH]; cbn; [reflexivity|now f_equal]. Qed.

Lemma prints_only_prints (lines : list string) : forallb is_print (map EvPrint lines) = true.
Proof. induction lines as [|l lines IH]; cbn; [reflexivity|exact IH]. Qed.

(** *** One declaration *)

Lemma dart_single_result (r : value) :
  result_of (dart_single r tt)
  = match record_error single_keys r with
    | Some e => Uncaught e
    | None => Normal tt
    end
  ∧ forallb is_print (trace_of (dart_single r tt)) = true.
Proof.
  destruct r as [s|n|xs|xs|items]; try (split; reflexivity).
  unfold dart_single, record_error, first_missing, single_keys, getitem. cbn [List.find].
  repeat (match goal with
          | |- context [assoc ?k items] => destruct (assoc k items); cbn; [|split; reflexivity]
          end).
  split; reflexivity.
Qed.

Lemma dart_pair_result (r : value) :
  result_of (dart_pair r tt)
  = match record_error pair_keys r with
    | Some e => Uncaught e
    | None => Normal tt
    end
  ∧ forallb is_print (trace_of (dart_pair r tt)) = true.
Proof.
  destruct r as [s|n|xs|xs|items]; try (split; reflexivity).
  unfold dart_pair, record_error, first_missing, pair_keys, getitem. cbn [List.find].
  repeat (match goal with
          | |- context [assoc ?k items] => destruct (assoc k items); cbn; [|split; reflexivity]
          end).
  split; reflexivity.
Qed.

Lemma dart_edge_result (r : value) :
  result_of (dart_edge r tt)
  = match record_error edge_keys r with
    | Some e => Uncaught e
    | None => Normal tt
    end
  ∧ forallb is_print (trace_of (dart_edge r tt)) = true.
Proof.
  destruct r as [s|n|xs|xs|items]; try (split; reflexivity).
  unfold dart_edge, record_error, first_missing, edge_keys, getitem. cbn [List.find].
  repeat (match goal with
          | |- context [assoc ?k items] => destruct (assoc k items); cbn; [|split; reflexivity]
          end).
  split; reflexivity.
Qed.

Lemma dart_single_declares (r : value) :
  has_keys single_keys r = true -> declares single_class (dart_single r tt).
Proof.
  unfold has_keys. destruct r as [s|n|xs|xs|items]; try discriminate.
  unfold record_error, first_missing, single_keys, dart_single, getitem. cbn [List.find].
  repeat (match goal with
          | |- context [assoc ?k items] => destruct (assoc k items); cbn; [|discriminate]
          end).
  intros _. eexists. split; [reflexivity|]. split; reflexivity.
Qed.

Lemma dart_pair_declares (r : value) :
  has_keys pair_keys r = true -> declares pair_class (dart_pair r tt).
Proof.
  unfold has_keys. destruct r as [s|n|xs|xs|items]; try discriminate.
  unfold record_error, first_missing, pair_keys, dart_pair, getitem. cbn [List.find].
  repeat (match goal with
          | |- context [assoc ?k items] => destruct (assoc k items); cbn; [|discriminate]
          end).
  intros _. eexists. split; [reflexivity|]. split; reflexivity.
Qed.

Lemma dart_edge_declares (r : value) :
  has_keys edge_keys r = true -> declares edge_class (dart_edge r tt).
Proof.
  unfold has_keys. destruct r as [s|n|xs|xs|items]; try discriminate.
  unfold record_error, first_missing, edge_keys, dart_edge, getitem. cbn [List.find].
  repeat (match goal with
          | |- context [assoc ?k items] => destruct (assoc k items); cbn; [|discriminate]
          end).
  intros _. eexists. split; [reflexivity|]. split; reflexivity.
Qed.

Lemma dart_span_returns (o : value) :
  is_span o = true -> exists s, dart_span o = (Normal s, []).
Proof.
  destruct o as [s|n|xs|xs|items]; try discriminate;
    destruct xs as [|a [|b xs]]; try discriminate; intros _; eexists; reflexivity.
Qed.

Lemma comprehension_returns (os : list value) :
  forallb is_span os = true -> exists ss, comprehension dart_span os = (Normal ss, []).
Proof.
  induction os as [|o os IH]; cbn [forallb comprehension]; [eauto|].
  intros [Ho Hos]%andb_prop.
  destruct (dart_span_returns o Ho) as [s Hs]. destruct (IH Hos) as [ss Hss].
  exists (s :: ss).
  eapply (bind_normal _ _ s [] _ []); [exact Hs|].
  eapply (bind_normal _ _ ss [] _ []); [exact Hss|reflexivity].
Qed.

Lemma dart_offset_declares (r : value) :
  offset_ok r = true -> declares offset_class (dart_offset r tt).
Proof.
  destruct r as [s|n|xs|xs|items]; try discriminate.
  unfold offset_ok, dart_offset, getitem.
  destruct (assoc "offsets" items) as [[s|n|os|os|d]|]; try discriminate;
    (destruct (assoc "name" items) as [name|]; [|discriminate]);
    (destruct (assoc "input" items) as [input|]; [|discriminate]);
    intros Hos; destruct (comprehension_returns os Hos) as [ss Hss];
    eexists; (split; [|split]).
  1, 4: (eapply (bind_normal _ _ _ [] _ _); [reflexivity|]; cbn beta;
         eapply (bind_normal _ _ _ [] _ _); [reflexivity|]; cbn beta;
         eapply (bind_normal _ _ _ [] _ _); [exact Hss|]; reflexivity).
  all: reflexivity.
Qed.

(** *** The loops of [_generate_dart_code] *)

Lemma for_each_declares (body : value -> unit -> M unit) (ok : value -> bool)
  (cls : string * list string) :
  (forall r, ok r = true -> declares cls (body r tt)) ->
  forall rs, forallb ok rs = true ->
    exists t,
      for_each rs tt body = (Normal tt, t)
      ∧ forallb is_print t = true
      ∧ forall rest,
          declarations (printed t ++ rest) = map (fun _ => cls) rs ++ declarations rest.
Proof.
  intros Hbody rs. induction rs as [|r rs IH]; cbn [forallb for_each map].
  - intros _. exists []. repeat split.
  - intros [Hr Hrs]%andb_prop.
    destruct (Hbody r Hr) as (t1 & Hrun1 & Hp1 & Hd1).
    destruct (IH Hrs) as (t2 & Hrun2 & Hp2 & Hd2).
    exists (t1 ++ t2). split; [|split].
    + now apply (bind_normal _ _ tt t1 tt t2).
    + now rewrite forallb_app, Hp1, Hp2.
    + intros rest. rewrite printed_app, <- app_assoc, Hd1, Hd2. reflexivity.
Qed.

Lemma holds_records_iter (key : string) (items : list (string * value)) :
  holds_records key (Dict items) = true ->
  exists v,
    getitem (Dict items) key = (Normal v, [])
    ∧ iter v = (Normal (records_of key (Dict items)), []).
Proof.
  unfold holds_records, records_of, getitem.
  destruct (assoc key items) as [[s|n|rs|rs|d]|]; try discriminate; intros _; eauto.
Qed.

Lemma declarations_skip (l : string) (rest : list string) :
  opener_of_line l = None -> declarations (l :: rest) = declarations rest.
Proof. intros Hl. cbn [declarations]. now rewrite Hl. Qed.

Ltac run_step := cbn beta; eapply bind_normal; [ reflexivity | ].
Ltac run_with H := cbn beta; eapply bind_normal; [ exact H | ].

(** [_generate_dart_code] on well-formed [results], in closed form up to the
    traces of its four loops. *)
Lemma generate_dart_code_returns (items : list (string * value)) :
  dart_ready (Dict items) = true ->
  exists t1 t2 t3 t4,
    _generate_dart_code (Dict items)
    = (Normal tt,
       EvPrint "// Single Encoding Test Cases" ::
       EvPrint "const _singleEncodingTestCases = [" ::
       (t1 ++ EvPrint "];" :: EvPrint EmptyString ::
        EvPrint "// Pair Encoding Test Cases" ::
        EvPrint "const _pairEncodingTestCases = [" ::
        (t2 ++ EvPrint "];" :: EvPrint EmptyString ::
         EvPrint "// Edge Case Test Cases" ::
         EvPrint "const _edgeCaseTestCases = [" ::
         (t3 ++ EvPrint "];" :: EvPrint EmptyString ::
          EvPrint "// Offset Test Cases" ::
          EvPrint "const _offsetTestCases = [" ::
          (t4 ++ [EvPrint "];"])))))
    ∧ (forallb is_print t1 = true ∧ forallb is_print t2 = true
       ∧ forallb is_print t3 = true ∧ forallb is_print t4 = true)
    ∧ (forall rest, declarations (printed t1 ++ rest)
                    = map (fun _ => single_class) (records_of "single_encoding" (Dict items))
                      ++ declarations rest)
    ∧ (forall rest, declarations (printed t2 ++ rest)
                    = map (fun _ => pair_class) (records_of "pair_encoding" (Dict items))
                      ++ declarations rest)
    ∧ (forall rest, declarations (printed t3 ++ rest)
                    = map (fun _ => edge_class) (records_of "edge_cases" (Dict items))
                      ++ declarations rest)
    ∧ (forall rest, declarations (printed t4 ++ rest)
                    = map (fun _ => offset_class) (records_of "offset_tests" (Dict items))
                      ++ declarations rest)
    ∧ (for_each (records_of "single_encoding" (Dict items)) tt dart_single = (Normal tt, t1)
       ∧ for_each (records_of "pair_encoding" (Dict items)) tt dart_pair = (Normal tt, t2)
       ∧ for_each (records_of "edge_cases" (Dict items)) tt dart_edge = (Normal tt, t3)
       ∧ for_each (records_of "offset_tests" (Dict items)) tt dart_offset = (Normal tt, t4)).
Proof.
  unfold dart_ready.
  intros [[[[[[[H1 O1]%andb_prop H2]%andb_prop O2]%andb_prop H3]%andb_prop
              O3]%andb_prop H4]%andb_prop O4]%andb_prop.
  destruct (holds_records_iter _ _ H1) as (v1 & G1 & I1).
  destruct (holds_records_iter _ _ H2) as (v2 & G2 & I2).
  destruct (holds_records_iter _ _ H3) as (v3 & G3 & I3).
  destruct (holds_records_iter _ _ H4) as (v4 & G4 & I4).
  destruct (for_each_declares dart_single _ _ dart_single_declares _ O1) as (t1 & R1 & P1 & D1).
  destruct (for_each_declares dart_pair _ _ dart_pair_declares _ O2) as (t2 & R2 & P2 & D2).
  destruct (for_each_declares dart_edge _ _ dart_edge_declares _ O3) as (t3 & R3 & P3 & D3).
  destruct (for_each_declares dart_offset _ _ dart_offset_declares _ O4) as (t4 & R4 & P4 & D4).
  exists t1, t2, t3, t4. split; [|auto 10].
  unfold _generate_dart_code. etransitivity.
  - do 2 run_step. run_with G1. run_with I1. run_with R1.
    do 4 run_step. run_with G2. run_with I2. run_with R2.
    do 4 run_step. run_with G3. run_with I3. run_with R3.
    do 4 run_step. run_with G4. run_with I4. run_with R4.
    reflexivity.
  - reflexivity.
Qed.

Lemma printed_cons_print (l : string) (t : list event) :
  printed (EvPrint l :: t) = l :: printed t.
Proof. reflexivity. Qed.

(** *** Lines *)

Lemma one_line_app (a b : string) : one_line (a +:+ b) = one_line a && one_line b.
Proof.
  induction a as [|c a IH]; simpl; [reflexivity|].
  now rewrite IH, andb_assoc.
Qed.

Lemma split_lines_line (l out : string) :
  one_line l = true -> split_lines (l +:+ nl +:+ out) = l :: split_lines out.
Proof.
  induction l as [|c l IH]; simpl.
  - intros _. reflexivity.
  - intros [Hc Hl]%andb_prop. apply negb_true_iff in Hc. rewrite Hc.
    now rewrite (IH Hl).
Qed.

Lemma output_lines_printed (t : list event) :
  forallb one_line (printed t) = true -> output_lines t = printed t.
Proof.
  unfold output_lines, stdout.
  induction (printed t) as [|l ls IH]; cbn [forallb fold_right split_lines].
  - reflexivity.
  - intros [Hl Hls]%andb_prop. rewrite (split_lines_line _ _ Hl). now rewrite IH.
Qed.

Lemma one_line_wrap (before mid after : string) :
  one_line before = true -> one_line after = true -> one_line mid = true ->
  one_line (before +:+ mid +:+ after) = true.
Proof. intros Hb Ha Hm. now rewrite !one_line_app, Hb, Hm, Ha. Qed.

Lemma one_line_join (sep : string) (parts : list string) :
  one_line sep = true -> forallb one_line parts = true ->
  one_line (str_join sep parts) = true.
Proof.
  intros Hsep. induction parts as [|p parts IH]; cbn [forallb]; [reflexivity|].
  intros [Hp Hparts]%andb_prop. destruct parts as [|q parts]; [exact Hp|].
  change (str_join sep (p :: q :: parts)) with (p +:+ sep +:+ str_join sep (q :: parts)).
  rewrite !one_line_app, Hp, Hsep. now rewrite (IH Hparts).
Qed.

Ltac one_line_fields :=
  unfold one_line_value in *;
  repeat match goal with
         | H : _ && _ = true |- _ => apply andb_prop in H as [? ?]
         end;
  rewrite ?one_line_app;
  repeat match goal with
         | H : one_line _ = true |- _ => rewrite H; clear H
         end;
  reflexivity.

Lemma dart_single_lines (r : value) :
  one_line_record single_keys r = true ->
  forallb one_line (printed (trace_of (dart_single r tt))) = true.
Proof.
  destruct r as [s|n|xs|xs|items]; try reflexivity.
  unfold one_line_record, single_keys, dart_single, getitem. cbn [forallb].
  repeat (match goal with
          | |- context [assoc ?k items] =>
              destruct (assoc k items); cbn; [|intros; one_line_fields]
          end).
  intros. one_line_fields.
Qed.

Lemma dart_pair_lines (r : value) :
  one_line_record pair_keys r = true ->
  forallb one_line (printed (trace_of (dart_pair r tt))) = true.
Proof.
  destruct r as [s|n|xs|xs|items]; try reflexivity.
  unfold one_line_record, pair_keys, dart_pair, getitem. cbn [forallb].
  repeat (match goal with
          | |- context [assoc ?k items] =>
              destruct (assoc k items); cbn; [|intros; one_line_fields]
          end).
  intros. one_line_fields.
Qed.

Lemma dart_edge_lines (r : value) :
  one_line_record edge_keys r = true ->
  forallb one_line (printed (trace_of (dart_edge r tt))) = true.
Proof.
  destruct r as [s|n|xs|xs|items]; try reflexivity.
  unfold one_line_record, edge_keys, dart_edge, getitem. cbn [forallb].
  repeat (match goal with
          | |- context [assoc ?k items] =>
              destruct (assoc k items); cbn; [|intros; one_line_fields]
          end).
  intros. one_line_fields.
Qed.

Lemma dart_span_line (o : value) (s : string) :
  one_line_span o = true -> dart_span o = (Normal s, []) -> one_line s = true.
Proof.
  destruct o as [x|n|xs|xs|items]; try discriminate;
    destruct xs as [|a [|b xs]]; try discriminate;
    cbn [one_line_span take forallb]; intros Ho [= <-]; one_line_fields.
Qed.

Lemma comprehension_lines (os : list value) (ss : list string) :
  forallb one_line_span os = true ->
  comprehension dart_span os = (Normal ss, []) ->
  forallb one_line ss = true.
Proof.
  revert ss. induction os as [|o os IH]; intros ss; cbn [forallb comprehension].
  - now intros _ [= <-].
  - intros [Ho Hos]%andb_prop.
    pose proof (FallibleFacts.dart_span_silent o) as Hsilent.
    destruct (dart_span o) as [[s|c|e] t] eqn:Hs; unfold trace_of in Hsilent;
      cbn [snd] in Hsilent; subst t; unfold bind at 1; [|discriminate..].
    pose proof (FallibleFacts.comprehension_silent os) as Hsilent.
    destruct (comprehension dart_span os) as [[ss'|c|e] t] eqn:Hss;
      unfold trace_of in Hsilent; cbn [snd] in Hsilent; subst t; unfold bind, ret;
      [|discriminate..].
    cbn [app]. intros [= <-]. cbn [forallb].
    now rewrite (dart_span_line o s Ho Hs), (IH ss' Hos eq_refl).
Qed.

Lemma dart_offset_lines (r : value) :
  one_line_offsets r = true ->
  forallb one_line (printed (trace_of (dart_offset r tt))) = true.
Proof.
  destruct r as [s|n|xs|xs|items]; try reflexivity.
  unfold one_line_offsets, one_line_record, dart_offset, getitem. cbn [forallb].
  intros [Hrec Hos]%andb_prop.
  destruct (assoc "offsets" items) as [[x|n|os|os|d]|]; try reflexivity.
  all: cbn [bind ret iter app].
  all: pose proof (FallibleFacts.comprehension_silent os) as Hsilent.
  all: destruct (comprehension dart_span os) as [[ss|c|e] t] eqn:Hss;
      unfold trace_of in Hsilent; cbn [snd] in Hsilent; subst t; try reflexivity.
  all: pose proof (comprehension_lines os ss Hos Hss) as Hlines.
  all: pose proof (one_line_join ", " ss eq_refl Hlines) as Hjoin.
  all: destruct (assoc "name" items); cbn; [|reflexivity].
  all: destruct (assoc "input" items); cbn; one_line_fields.
Qed.

(** *** Indentation *)

Lemma dart_single_indented (r : value) :
  forallb (String.prefix "  ") (printed (trace_of (dart_single r tt))) = true.
Proof.
  destruct r as [s|n|xs|xs|items]; try reflexivity.
  unfold dart_single, getitem.
  repeat (match goal with
          | |- context [assoc ?k items] => destruct (assoc k items); cbn; [|reflexivity]
          end).
  reflexivity.
Qed.

(** *** What a loop prints *)

Lemma for_each_printed (P : string -> bool) (body : value -> unit -> M unit)
  (ok : value -> bool) :
  (forall r, ok r = true -> forallb P (printed (trace_of (body r tt))) = true) ->
  forall rs, forallb ok rs = true ->
    forallb P (printed (trace_of (for_each rs tt body))) = true.
Proof.
  intros Hbody rs. induction rs as [|r rs IH]; cbn [forallb for_each].
  - reflexivity.
  - intros [Hr Hrs]%andb_prop. specialize (Hbody r Hr). specialize (IH Hrs).
    unfold bind. destruct (body r tt) as [[[]|c|e] t]; unfold trace_of in *;
      cbn [snd] in *; [|exact Hbody..].
    destruct (for_each rs tt body) as [r' t']. cbn [snd] in *.
    now rewrite printed_app, forallb_app, Hbody, IH.
Qed.

(** ** Properties of [_generate_dart_code] *)

(** X1.  On results that hold the four lists, with every record carrying the
    keys its declaration reads (and every offset at least two items),
    [_generate_dart_code] returns normally and does nothing but print.  Its
    print calls are those of one declaration per record: all
    single-encoding declarations first, then the pair, edge-case and offset
    ones, each with the fields of its class; other keys of a record are
    ignored.  When nothing it formats holds a raw newline, every call
    writes one line, and the lines of the output read as these
    declarations. *)
Theorem dart_code_for_well_formed_results (results : value) :
  dart_ready results = true ->
  result_of (_generate_dart_code results) = Normal tt
  ∧ forallb is_print (trace_of (_generate_dart_code results)) = true
  ∧ declarations (printed (trace_of (_generate_dart_code results))) = classes_of results
  ∧ (renders_on_one_line results = true ->
     output_lines (trace_of (_generate_dart_code results))
     = printed (trace_of (_generate_dart_code results))
     ∧ declarations (output_lines (trace_of (_generate_dart_code results)))
       = classes_of results).
Proof.
  destruct results as [s|n|xs|xs|items]; try discriminate.
  intros Hready.
  destruct (generate_dart_code_returns items Hready)
    as (t1 & t2 & t3 & t4 & -> & (P1 & P2 & P3 & P4) & D1 & D2 & D3 & D4
        & R1 & R2 & R3 & R4).
  unfold result_of, trace_of. cbn [fst snd].
  assert (Hdecl :
    declarations
      (printed
         (EvPrint "// Single Encoding Test Cases" ::
          EvPrint "const _singleEncodingTestCases = [" ::
          (t1 ++ EvPrint "];" :: EvPrint EmptyString ::
           EvPrint "// Pair Encoding Test Cases" ::
           EvPrint "const _pairEncodingTestCases = [" ::
           (t2 ++ EvPrint "];" :: EvPrint EmptyString ::
            EvPrint "// Edge Case Test Cases" ::
            EvPrint "const _edgeCaseTestCases = [" ::
            (t3 ++ EvPrint "];" :: EvPrint EmptyString ::
             EvPrint "// Offset Test Cases" ::
             EvPrint "const _offsetTestCases = [" ::
             (t4 ++ [EvPrint "];"]))))))
    = classes_of (Dict items)).
  { unfold classes_of.
    rewrite !printed_cons_print.
    rewrite !declarations_skip by reflexivity.
    rewrite printed_app, D1, !printed_cons_print.
    rewrite !declarations_skip by reflexivity.
    rewrite printed_app, D2, !printed_cons_print.
    rewrite !declarations_skip by reflexivity.
    rewrite printed_app, D3, !printed_cons_print.
    rewrite !declarations_skip by reflexivity.
    rewrite printed_app, D4. cbn [printed flat_map app].
    rewrite declarations_skip by reflexivity.
    cbn [declarations]. now rewrite app_nil_r. }
  split; [reflexivity|]. split; [|split; [exact Hdecl|]].
  - cbn [forallb is_print andb].
    repeat (rewrite forallb_app; cbn [forallb is_print andb]).
    now rewrite P1, P2, P3, P4.
  - unfold renders_on_one_line.
    intros [[[L1 L2]%andb_prop L3]%andb_prop L4]%andb_prop.
    pose proof (for_each_printed one_line dart_single _ dart_single_lines _ L1) as Q1.
    pose proof (for_each_printed one_line dart_pair _ dart_pair_lines _ L2) as Q2.
    pose proof (for_each_printed one_line dart_edge _ dart_edge_lines _ L3) as Q3.
    pose proof (for_each_printed one_line dart_offset _ dart_offset_lines _ L4) as Q4.
    rewrite R1 in Q1. rewrite R2 in Q2. rewrite R3 in Q3. rewrite R4 in Q4.
    unfold trace_of in Q1, Q2, Q3, Q4. cbn [snd] in Q1, Q2, Q3, Q4.
    assert (Hlines :
      output_lines
        (EvPrint "// Single Encoding Test Cases" ::
         EvPrint "const _singleEncodingTestCases = [" ::
         (t1 ++ EvPrint "];" :: EvPrint EmptyString ::
          EvPrint "// Pair Encoding Test Cases" ::
          EvPrint "const _pairEncodingTestCases = [" ::
          (t2 ++ EvPrint "];" :: EvPrint EmptyString ::
           EvPrint "// Edge Case Test Cases" ::
           EvPrint "const _edgeCaseTestCases = [" ::
           (t3 ++ EvPrint "];" :: EvPrint EmptyString ::
            EvPrint "// Offset Test Cases" ::
            EvPrint "const _offsetTestCases = [" ::
            (t4 ++ [EvPrint "];"])))))
      = printed
          (EvPrint "// Single Encoding Test Cases" ::
           EvPrint "const _singleEncodingTestCases = [" ::
           (t1 ++ EvPrint "];" :: EvPrint EmptyString ::
            EvPrint "// Pair Encoding Test Cases" ::
            EvPrint "const _pairEncodingTestCases = [" ::
            (t2 ++ EvPrint "];" :: EvPrint EmptyString ::
             EvPrint "// Edge Case Test Cases" ::
             EvPrint "const _edgeCaseTestCases = [" ::
             (t3 ++ EvPrint "];" :: EvPrint EmptyString ::
              EvPrint "// Offset Test Cases" ::
              EvPrint "const _offsetTestCases = [" ::
              (t4 ++ [EvPrint "];"])))))).
    { apply output_lines_printed.
      repeat first [ rewrite printed_cons_print | rewrite printed_app
                   | rewrite forallb_app | progress cbn [forallb] ].
      rewrite Q1, Q2, Q3, Q4. reflexivity. }
    split; [exact Hlines|]. rewrite Hlines. exact Hdecl.
Qed.

Lemma dart_single_fails (r : value) (e : exn) :
  record_error single_keys r = Some e ->
  exists t,
    dart_single r tt = (Uncaught e, t)
    ∧ forallb is_print t = true
    ∧ declarations (printed t) = [partial_single r].
Proof.
  destruct r as [s|n|xs|xs|items];
    try (intros [= <-]; eexists; split; [reflexivity|split; reflexivity]).
  unfold record_error, first_missing, single_keys, dart_single, getitem, partial_single,
    single_fields.
  cbn [List.find printed_fields].
  repeat (match goal with
          | |- context [assoc ?k items] =>
              destruct (assoc k items); cbn;
              [|intros [= <-]; eexists; split; [reflexivity|split; reflexivity]]
          end).
  discriminate.
Qed.

Lemma for_each_stops (body : value -> unit -> M unit) (ok : value -> bool)
  (cls : string * list string) (good : list value) (r : value) (rest : list value)
  (e : exn) (tr : list event) :
  (forall x, ok x = true -> declares cls (body x tt)) ->
  forallb ok good = true ->
  body r tt = (Uncaught e, tr) ->
  exists tg,
    for_each (good ++ r :: rest) tt body = (Uncaught e, tg ++ tr)
    ∧ for_each good tt body = (Normal tt, tg)
    ∧ forallb is_print tg = true
    ∧ forall more, declarations (printed tg ++ more)
                   = map (fun _ => cls) good ++ declarations more.
Proof.
  intros Hbody Hgood Hr. induction good as [|x good IH]; cbn [app for_each forallb] in *.
  - exists []. split; [|split; [reflexivity|split; reflexivity]].
    unfold bind. now rewrite Hr.
  - apply andb_prop in Hgood as [Hx Hgood].
    destruct (Hbody x Hx) as (tx & Hrunx & Hpx & Hdx).
    destruct (IH Hgood) as (tg & Hrun & Hfor & Hpg & Hdg).
    exists (tx ++ tg). split; [|split; [|split]].
    + unfold bind. rewrite Hrunx. unfold bind in Hrun. rewrite Hrun.
      now rewrite app_assoc.
    + now apply (bind_normal _ _ tt tx tt tg).
    + now rewrite forallb_app, Hpx, Hpg.
    + intros more. rewrite printed_app, <- app_assoc, Hdx, Hdg. reflexivity.
Qed.

(** X2.  When a single-encoding record is not a dict, or lacks one of the
    keys name, input, tokens, ids, type_ids, attention_mask, the generator
    raises at the first such record: [TypeError] for a non-dict, [KeyError]
    of the first key missing in that reading order.  Until then it has only
    printed: the two header lines of the single-encoding section, then
    nothing but indented declaration text, which reads as the complete
    declarations of the records before the failing one followed by the
    opening of the failing one with the fields read before the failure.
    The section is not closed and no other section is started.  When
    nothing formatted out of these records holds a raw newline, every
    print call is one line of the output. *)
Theorem dart_code_stops_at_first_bad_record (items : list (string * value))
  (good : list value) (r : value) (rest : list value) (e : exn) :
  assoc "single_encoding" items = Some (List (good ++ r :: rest)) ->
  forallb (has_keys single_keys) good = true ->
  record_error single_keys r = Some e ->
  result_of (_generate_dart_code (Dict items)) = Uncaught e
  ∧ forallb is_print (trace_of (_generate_dart_code (Dict items))) = true
  ∧ take 2 (printed (trace_of (_generate_dart_code (Dict items))))
    = ["// Single Encoding Test Cases"; "const _singleEncodingTestCases = ["]%string
  ∧ forallb (String.prefix "  ")
      (drop 2 (printed (trace_of (_generate_dart_code (Dict items))))) = true
  ∧ declarations (printed (trace_of (_generate_dart_code (Dict items))))
    = map (fun _ => single_class) good ++ [partial_single r]
  ∧ (forallb (one_line_record single_keys) (good ++ [r]) = true ->
     output_lines (trace_of (_generate_dart_code (Dict items)))
     = printed (trace_of (_generate_dart_code (Dict items)))).
Proof.
  intros Hlist Hgood Hbad.
  destruct (dart_single_fails r e Hbad) as (tr & Hr & Hpr & Hdr).
  destruct (for_each_stops dart_single _ single_class good r rest e tr
              dart_single_declares Hgood Hr) as (tg & Hrun & Hfor & Hpg & Hdg).
  assert (Hcode : _generate_dart_code (Dict items)
                  = (Uncaught e,
                     EvPrint "// Single Encoding Test Cases" ::
                     EvPrint "const _singleEncodingTestCases = [" :: (tg ++ tr))).
  { unfold _generate_dart_code, getitem. rewrite Hlist.
    unfold bind at 1 2 3 4 5. cbn [print emit ret iter]. rewrite Hrun. reflexivity. }
  pose proof (dart_single_indented r) as Hir. rewrite Hr in Hir.
  pose proof (for_each_printed (String.prefix "  ") dart_single _
                (fun x _ => dart_single_indented x) good Hgood) as Hig.
  rewrite Hfor in Hig. unfold trace_of in Hir, Hig. cbn [snd] in Hir, Hig.
  rewrite Hcode. unfold result_of, trace_of. cbn [fst snd].
  rewrite !printed_cons_print, printed_app. cbn [firstn skipn]. rewrite take_0, drop_0.
  split; [reflexivity|]. split; [|split; [reflexivity|split; [|split]]].
  - cbn [forallb is_print andb]. now rewrite forallb_app, Hpg, Hpr.
  - now rewrite forallb_app, Hig, Hir.
  - rewrite !declarations_skip by reflexivity.
    rewrite Hdg, Hdr. reflexivity.
  - rewrite forallb_app. intros [Lg Lr]%andb_prop.
    cbn [forallb] in Lr. rewrite andb_true_r in Lr.
    pose proof (dart_single_lines r Lr) as Qr. rewrite Hr in Qr.
    pose proof (for_each_printed one_line dart_single _ dart_single_lines good Lg) as Qg.
    rewrite Hfor in Qg. unfold trace_of in Qr, Qg. cbn [snd] in Qr, Qg.
    rewrite <- printed_app, <- !printed_cons_print.
    apply output_lines_printed.
    rewrite !printed_cons_print, printed_app. cbn [forallb].
    now rewrite forallb_app, Qg, Qr.
Qed.

End Generator.

Section Run.

Context `{Library}.

(** *** The calls of each loop *)

Lemma encode_calls_app (a b : list event) :
  encode_calls (a ++ b) = encode_calls a ++ encode_calls b.
Proof. unfold encode_calls. apply flat_map_app. Qed.

Lemma encode_calls_loop {A : Type} (ev : A -> list event)
  (call : A -> Tokenizer * string * option string) (l : list A) :
  (forall x, encode_calls (ev x) = [call x]) ->
  encode_calls (flat_map ev l) = map call l.
Proof.
  intros Hev. induction l as [|x l IH]; cbn [flat_map map]; [reflexivity|].
  now rewrite encode_calls_app, Hev, IH.
Qed.

Lemma dumps_loop {A : Type} (ev : A -> list event) (l : list A) :
  (forall x, dumps (ev x) = []) -> dumps (flat_map ev l) = [].
Proof.
  intros Hev. induction l as [|x l IH]; cbn [flat_map]; [reflexivity|].
  unfold dumps in *. now rewrite flat_map_app, Hev, IH.
Qed.

(** X3.  Whatever the catalog and whatever [results] already holds, each of
    the four loops of [main] returns normally, appends one record per entry,
    in order, to the end of its own list and leaves the other three lists as
    they were; it makes one encode call per entry, in order (with the second
    text only in the pair loop), and writes no file. *)
Theorem loops_append_to_their_own_list (tk : Tokenizer) (a b c d : list value)
  (cases : list (string * string)) (pairs : list (string * string * string)) :
  (result_of (for_each cases (results_of a b c d) (single_body tk))
   = Normal (results_of (a ++ map (single_record tk) cases) b c d)
   ∧ encode_calls (trace_of (for_each cases (results_of a b c d) (single_body tk)))
     = map (fun x => (tk, snd x, None)) cases
   ∧ dumps (trace_of (for_each cases (results_of a b c d) (single_body tk))) = [])
  ∧ (result_of (for_each pairs (results_of a b c d) (pair_body tk))
     = Normal (results_of a (b ++ map (pair_record tk) pairs) c d)
     ∧ encode_calls (trace_of (for_each pairs (results_of a b c d) (pair_body tk)))
       = map (fun x => (tk, snd (fst x), Some (snd x))) pairs
     ∧ dumps (trace_of (for_each pairs (results_of a b c d) (pair_body tk))) = [])
  ∧ (result_of (for_each cases (results_of a b c d) (edge_body tk))
     = Normal (results_of a b (c ++ map (single_record tk) cases) d)
     ∧ encode_calls (trace_of (for_each cases (results_of a b c d) (edge_body tk)))
       = map (fun x => (tk, snd x, None)) cases
     ∧ dumps (trace_of (for_each cases (results_of a b c d) (edge_body tk))) = [])
  ∧ (result_of (for_each cases (results_of a b c d) (offset_body tk))
     = Normal (results_of a b c (d ++ map (offset_record tk) cases))
     ∧ encode_calls (trace_of (for_each cases (results_of a b c d) (offset_body tk)))
       = map (fun x => (tk, snd x, None)) cases
     ∧ dumps (trace_of (for_each cases (results_of a b c d) (offset_body tk))) = []).
Proof.
  rewrite single_loop, pair_loop, edge_loop, offset_loop.
  unfold result_of, trace_of. cbn [fst snd].
  repeat split.
  - now apply encode_calls_loop.
  - now apply dumps_loop.
  - apply encode_calls_loop. now intros [[name text_a] text_b].
  - apply dumps_loop. now intros [[name text_a] text_b].
  - now apply encode_calls_loop.
  - now apply dumps_loop.
  - now apply encode_calls_loop.
  - now apply dumps_loop.
Qed.

(** *** The order of a complete run *)

Lemma success_trace_split :
  exists middle after,
    success_trace
    = EvExists "vocab.txt" true ::
      EvPrint "Loading HuggingFace BertWordPieceTokenizer..." ::
      EvNewTokenizer "vocab.txt" true true the_tokenizer ::
      middle ++ EvDump output_path (to_json (final_results the_tokenizer)) :: after
    ∧ encode_calls middle = expected_calls the_tokenizer
    ∧ constructions middle = []
    ∧ dumps middle = []
    ∧ forallb is_print after = true
    ∧ forallb (fun e => is_print e || is_encode e) middle = true
    ∧ declarations (printed middle) = []
    ∧ after
      = EvPrint (nl +:+ "✅ Results saved to: hf_benchmark_data.json") ::
        EvPrint (nl +:+ "--- Dart Test Case Generation ---") ::
        EvPrint ("Copy the following to update benchmark test cases:" +:+ nl) ::
        trace_of (_generate_dart_code (final_results the_tokenizer))
    ∧ declarations (printed (trace_of (_generate_dart_code (final_results the_tokenizer))))
      = dart_declarations.
Proof.
  exists (EvPrint (nl +:+ "--- Single Encoding Tests ---") ::
          (flat_map (single_events the_tokenizer) SINGLE_ENCODING_TESTS ++
           EvPrint (nl +:+ "--- Pair Encoding Tests ---") ::
           (flat_map (pair_events the_tokenizer) PAIR_ENCODING_TESTS ++
            EvPrint (nl +:+ "--- Edge Case Tests ---") ::
            (flat_map (single_events the_tokenizer) EDGE_CASE_TESTS ++
             EvPrint (nl +:+ "--- Offset Tests ---") ::
             flat_map (offset_events the_tokenizer) OFFSET_TESTS)))).
  exists (EvPrint (nl +:+ "✅ Results saved to: hf_benchmark_data.json") ::
          EvPrint (nl +:+ "--- Dart Test Case Generation ---") ::
          EvPrint ("Copy the following to update benchmark test cases:" +:+ nl) ::
          dart_trace the_tokenizer).
  rewrite generate_dart_code_run. unfold trace_of. cbn [snd].
  split.
  - unfold success_trace. cbn zeta. do 3 f_equal.
  - split; [vm_compute; reflexivity|].
    split; [vm_compute; reflexivity|].
    split; [vm_compute; reflexivity|].
    split; [vm_compute; reflexivity|].
    split; [vm_compute; reflexivity|].
    split; [vm_compute; reflexivity|].
    split; [reflexivity|].
    vm_compute; reflexivity.
Qed.

(** X4.  A complete run proceeds in this order: the existence test of
    [vocab.txt], the loading message, the construction of the tokenizer; then
    the 84 encode calls, in catalog order (single, pair, edge case, offset)
    with nothing but prints between them, none of which reads as a Dart
    declaration; then the one write of [hf_benchmark_data.json]; and after
    it three messages followed by exactly what [_generate_dart_code] does
    with the results written, which is where all 84 declarations are.  So
    the file is complete before any Dart text is printed, and nothing is
    encoded after it is written. *)
Theorem run_encodes_then_dumps_then_prints (w : World) :
  ready w = true ->
  exists middle after,
    trace_of (script w)
    = EvExists "vocab.txt" true ::
      EvPrint "Loading HuggingFace BertWordPieceTokenizer..." ::
      EvNewTokenizer "vocab.txt" true true the_tokenizer ::
      middle ++ EvDump output_path (to_json (final_results the_tokenizer)) :: after
    ∧ encode_calls middle = expected_calls the_tokenizer
    ∧ constructions middle = []
    ∧ dumps middle = []
    ∧ forallb is_print after = true
    ∧ forallb (fun e => is_print e || is_encode e) middle = true
    ∧ declarations (printed middle) = []
    ∧ after
      = EvPrint (nl +:+ "✅ Results saved to: hf_benchmark_data.json") ::
        EvPrint (nl +:+ "--- Dart Test Case Generation ---") ::
        EvPrint ("Copy the following to update benchmark test cases:" +:+ nl) ::
        trace_of (_generate_dart_code (final_results the_tokenizer))
    ∧ declarations (printed (trace_of (_generate_dart_code (final_results the_tokenizer))))
      = dart_declarations.
Proof.
  intros Hready. rewrite (script_ready w Hready).
  unfold trace_of at 1. cbn [snd]. apply success_trace_split.
Qed.

(** X5.  The Dart [name:] line holds the test name between single quotes
    with no escaping.  In every complete run, whatever the tokenizer
    returns, exactly six name lines therefore contain a third quote: those
    of the catalog names with an apostrophe. *)
Theorem names_are_printed_unescaped (w : World) :
  ready w = true ->
  broken_name_lines (printed (trace_of (script w)))
  = ["    name: 'Contraction (I'm)',";
     "    name: 'Contraction (don't)',";
     "    name: 'Contraction (won't)',";
     "    name: 'Contraction (it's)',";
     "    name: 'Contraction (they're)',";
     "    name: 'Contraction (we've)',"]%string.
Proof.
  intros Hready. rewrite (script_ready w Hready).
  unfold trace_of. cbn [snd]. vm_compute. reflexivity.
Qed.

Lemma record_names_final :
  record_names (to_json (final_results the_tokenizer))
  = map fst SINGLE_ENCODING_TESTS ++ map (fun c => fst (fst c)) PAIR_ENCODING_TESTS
    ++ map fst EDGE_CASE_TESTS ++ map fst OFFSET_TESTS.
Proof. vm_compute. reflexivity. Qed.

Lemma catalog_names_distinct :
  NoDup (map fst SINGLE_ENCODING_TESTS ++ map (fun c => fst (fst c)) PAIR_ENCODING_TESTS
         ++ map fst EDGE_CASE_TESTS ++ map fst OFFSET_TESTS).
Proof. apply (bool_decide_unpack _). vm_compute. exact I. Qed.

(** X6.  In a complete run the 84 records of the document have pairwise
    distinct names, across all four arrays, and the Dart declarations carry
    the same names in the same order: a name identifies one record and one
    declaration. *)
Theorem names_identify_records (w : World) :
  ready w = true ->
  exists doc,
    dumps (trace_of (script w)) = [(output_path, doc)]
    ∧ NoDup (record_names doc)
    ∧ length (record_names doc) = 84
    ∧ declared_names (printed (trace_of (script w))) = record_names doc.
Proof.
  intros Hready. rewrite (script_ready w Hready).
  unfold trace_of. cbn [snd].
  exists (to_json (final_results the_tokenizer)).
  split; [apply dumps_success|].
  rewrite record_names_final.
  split; [apply catalog_names_distinct|].
  split; [reflexivity|apply declared_names_success].
Qed.

End Run.

#[local] Existing Instance Sample.library.

Lemma dart_code_for_well_formed_results_witness :
  dart_ready Sample.hand_results = true
  ∧ renders_on_one_line Sample.hand_results = true
  ∧ result_of (_generate_dart_code Sample.hand_results) = Normal tt
  ∧ forallb is_print (trace_of (_generate_dart_code Sample.hand_results)) = true
  ∧ declarations (printed (trace_of (_generate_dart_code Sample.hand_results)))
    = classes_of Sample.hand_results
  ∧ declarations (output_lines (trace_of (_generate_dart_code Sample.hand_results)))
    = classes_of Sample.hand_results.
Proof.
  destruct (dart_code_for_well_formed_results Sample.hand_results eq_refl)
    as (Hresult & Hprints & Hcalls & Hlines).
  destruct (Hlines eq_refl) as [_ Hread].
  split; [reflexivity|]. split; [reflexivity|]. split; [exact Hresult|].
  split; [exact Hprints|]. split; [exact Hcalls|exact Hread].
Defined.

(** The condition on newlines is needed: a name that holds a raw newline
    followed by what reads as an opening line gives the output one
    declaration more than there are records, though the print calls are
    those of one declaration. *)
Lemma raw_newline_in_a_name_adds_a_declaration :
  dart_ready Sample.two_line_results = true
  ∧ renders_on_one_line Sample.two_line_results = false
  ∧ map fst (declarations (printed (trace_of (_generate_dart_code Sample.two_line_results))))
    = ["SingleEncodingTestCase"]%string
  ∧ map fst (declarations (output_lines (trace_of (_generate_dart_code Sample.two_line_results))))
    = ["SingleEncodingTestCase"; "Injected"]%string.
Proof. vm_compute. repeat split. Qed.

Lemma dart_code_stops_at_first_bad_record_witness :
  assoc "single_encoding" Sample.mixed_items
  = Some (List ([Sample.good_single] ++ Sample.offset_shaped :: [Sample.good_single]))
  ∧ forallb (has_keys single_keys) [Sample.good_single] = true
  ∧ record_error single_keys Sample.offset_shaped = Some (KeyError "type_ids")
  ∧ result_of (_generate_dart_code (Dict Sample.mixed_items))
    = Uncaught (KeyError "type_ids")
  ∧ forallb is_print (trace_of (_generate_dart_code (Dict Sample.mixed_items))) = true
  ∧ declarations (printed (trace_of (_generate_dart_code (Dict Sample.mixed_items))))
    = [single_class;
       ("SingleEncodingTestCase", ["name"; "input"; "expectedTokens"; "expectedIds"])%string]
  ∧ output_lines (trace_of (_generate_dart_code (Dict Sample.mixed_items)))
    = ["// Single Encoding Test Cases";
       "const _singleEncodingTestCases = [";
       "  SingleEncodingTestCase(";
       "    name: 's',";
       "    input: 'a',";
       "    expectedTokens: ['a'],";
       "    expectedIds: [7],";
       "    expectedTypeIds: [0],";
       "    expectedAttentionMask: [1],";
       "  ),";
       "  SingleEncodingTestCase(";
       "    name: 'o',";
       "    input: 'a',";
       "    expectedTokens: ['a'],";
       "    expectedIds: [7],"]%string.
Proof.
  destruct (dart_code_stops_at_first_bad_record Sample.mixed_items [Sample.good_single]
              Sample.offset_shaped [Sample.good_single] (KeyError "type_ids")
              eq_refl eq_refl eq_refl)
    as (Hresult & Hprints & _ & _ & Hcalls & Hlines).
  split; [reflexivity|]. split; [reflexivity|]. split; [reflexivity|].
  split; [exact Hresult|]. split; [exact Hprints|]. split; [exact Hcalls|].
  rewrite (Hlines eq_refl). reflexivity.
Defined.

Lemma sample_ready : ready Sample.ready = true.
Proof.
  apply ready_true; [reflexivity|].
  unfold Sample.ready; cbn [existing_files]; set_solver.
Qed.

Lemma run_encodes_then_dumps_then_prints_witness :
  ready Sample.ready = true
  ∧ exists middle after,
      trace_of (Sample.run Sample.ready)
      = EvExists "vocab.txt" true ::
        EvPrint "Loading HuggingFace BertWordPieceTokenizer..." ::
        EvNewTokenizer "vocab.txt" true true the_tokenizer ::
        middle ++ EvDump output_path (to_json (final_results the_tokenizer)) :: after
      ∧ encode_calls middle = expected_calls the_tokenizer
      ∧ constructions middle = []
      ∧ dumps middle = []
      ∧ forallb is_print after = true
      ∧ forallb (fun e => is_print e || is_encode e) middle = true
      ∧ declarations (printed middle) = []
      ∧ after
        = EvPrint (nl +:+ "✅ Results saved to: hf_benchmark_data.json") ::
          EvPrint (nl +:+ "--- Dart Test Case Generation ---") ::
          EvPrint ("Copy the following to update benchmark test cases:" +:+ nl) ::
          trace_of (_generate_dart_code (final_results the_tokenizer))
      ∧ declarations (printed (trace_of (_generate_dart_code (final_results the_tokenizer))))
        = dart_declarations.
Proof.
  split; [exact sample_ready|].
  exact (run_encodes_then_dumps_then_prints Sample.ready sample_ready).
Defined.

Lemma names_are_printed_unescaped_witness :
  ready Sample.ready = true
  ∧ length (broken_name_lines (printed (trace_of (Sample.run Sample.ready)))) = 6.
Proof.
  split; [exact sample_ready|].
  unfold Sample.run.
  now rewrite (names_are_printed_unescaped Sample.ready sample_ready).
Defined.

Lemma names_identify_records_witness :
  ready Sample.ready = true
  ∧ exists doc,
      dumps (trace_of (Sample.run Sample.ready)) = [(output_path, doc)]
      ∧ NoDup (record_names doc)
      ∧ length (record_names doc) = 84
      ∧ declared_names (printed (trace_of (Sample.run Sample.ready))) = record_names doc.
Proof.
  split; [exact sample_ready|].
  exact (names_identify_records Sample.ready sample_ready).
Defined.

End ScriptExtras.
